(** * rulm/nnlm.py: batch preparation, step functions and the training driver

    A shallow embedding of [src/rulm/nnlm.py].  Integer arrays (numpy
    [int32] arrays and [LongTensor]s) are lists of [Z] with their shape
    written out; a line of text is the list of its Unicode code points;
    Python exceptions are an explicit [Raise] result; calls to the
    collaborators (model, optimizer, loss, filesystem, ignite engine) are
    recorded in a call trace. *)

From Stdlib Require Import ZArith List String Ascii Lia Permutation Sorted QArith.
From stdpp Require Import gmap strings list.
Import ListNotations.

Local Open Scope string_scope.
Local Open Scope Z_scope.
Local Open Scope nat_scope.
Local Open Scope list_scope.

(** ** Python results *)

Module Py.

Inductive exn : Type :=
| AssertionError
| IndexError
| KeyError (key : string)
| RuntimeError
| TypeError
| ValueError
| ZeroDivisionError
| Failure (code : nat).

Inductive result (A : Type) : Type :=
| Ok (a : A)
| Raise (e : exn).

Arguments Ok {A} a.
Arguments Raise {A} e.

Definition rbind {A B : Type} (r : result A) (k : A -> result B) : result B :=
  match r with
  | Ok a => k a
  | Raise e => Raise e
  end.

Definition is_ok {A : Type} (r : result A) : bool :=
  match r with Ok _ => true | Raise _ => false end.

End Py.
Import Py.

Notation "'let?' x ':=' r 'in' k" := (rbind r (fun x => k))
  (at level 10, x pattern, r at level 100, k at level 200).

(** ** Builtins used by [preprocess_batch] *)

(** [max(lengths)]: [ValueError] on an empty sequence. *)
Definition py_max (l : list nat) : result nat :=
  match l with
  | [] => Raise ValueError
  | n :: r => Ok (fold_left Nat.max r n)
  end.

(** One step of a stable descending sort: [a] stood before every element
    of [l] in the input, so it goes before the first element whose key is
    not greater than its own. *)
Fixpoint insert_desc {A : Type} (key : A -> nat) (a : A) (l : list A) : list A :=
  match l with
  | [] => [a]
  | b :: r => if key a <? key b then b :: insert_desc key a r else a :: l
  end.

(** [sorted(l, key=key, reverse=True)]: Python's sort is stable, also with
    [reverse=True], which fixes the result; insertion computes it. *)
Definition sorted_reverse {A : Type} (key : A -> nat) (l : list A) : list A :=
  fold_right (insert_desc key) [] l.

(** [l.sort(reverse=True)] on a list of ints. *)
Definition list_sort_reverse (l : list nat) : list nat :=
  sorted_reverse (fun n => n) l.

(** A list in descending order of [key]. *)
Definition descending {A : Type} (key : A -> nat) (l : list A) : Prop :=
  StronglySorted (fun a b => key b <= key a) l.

(** ** Two-dimensional integer arrays *)

Record ndarray : Type := mk_ndarray {
  shape0 : nat;
  shape1 : nat;
  rows : list (list Z)
}.

(** [default_collate] on a list of one-dimensional arrays stacks them
    along a new leading axis; arrays of different sizes cannot be stacked. *)
Definition default_collate (batch : list (list Z)) : result ndarray :=
  match batch with
  | [] => Raise IndexError
  | elem :: _ =>
      if forallb (fun sample => length sample =? length elem) batch
      then Ok (mk_ndarray (length batch) (length elem) batch)
      else Raise RuntimeError
  end.

(** [np.zeros((n, m))] *)
Definition np_zeros (n m : nat) : ndarray :=
  mk_ndarray n m (repeat (repeat 0%Z m) n).

(** [a[:, 1:]] *)
Definition columns_from_1 (a : ndarray) : ndarray :=
  mk_ndarray (shape0 a) (shape1 a - 1) (map (skipn 1) (rows a)).

(** [y[:, :-1] = src]: the first [shape1 y - 1] columns of [y] are
    overwritten, the remaining column is kept. *)
Definition assign_columns_to_last (y src : ndarray) : ndarray :=
  mk_ndarray (shape0 y) (shape1 y)
    (map (fun '(yrow, srow) => srow ++ skipn (shape1 y - 1) yrow)
       (combine (rows y) (rows src))).

(** [torch.transpose(a, 0, 1)] *)
Definition transpose01 (a : ndarray) : ndarray :=
  mk_ndarray (shape1 a) (shape0 a)
    (map (fun t => map (fun row => nth t row 0%Z) (rows a)) (seq 0 (shape1 a))).

(** ** preprocess_batch *)

(** [len([elem for elem in sample if elem != 0])] *)
Definition effective_length (sample : list Z) : nat :=
  length (List.filter (fun elem => negb (elem =? 0)%Z) sample).

(** An encoded sequence carries its padding at the end: after the first
    entry equal to the padding index 0 every entry is 0. *)
Fixpoint padded_at_end (sample : list Z) : bool :=
  match sample with
  | [] => true
  | elem :: rest =>
      if (elem =? 0)%Z then forallb (fun e => (e =? 0)%Z) rest else padded_at_end rest
  end.

(** The local variables of [preprocess_batch] when it returns. *)
Record batch_locals : Type := mk_locals {
  l_max_length : nat;
  l_pairs : list (list Z * nat);
  l_lengths : list nat;
  l_batch : ndarray;
  l_y : ndarray;
  l_x : ndarray
}.

(** Lines 32-36: lengths, working length, sort and truncation. *)
Definition sort_and_truncate (batch : list (list Z))
  : result (nat * list (list Z * nat) * list (list Z) * list nat) :=
  let lengths := map effective_length batch in
  let? max_length := py_max lengths in
  let pairs := sorted_reverse snd (combine batch lengths) in
  let batch' := map (fun p => firstn max_length (fst p)) pairs in
  let lengths' := list_sort_reverse lengths in
  Ok (max_length, pairs, batch', lengths').

Definition preprocess_batch_locals (batch : list (list Z)) : result batch_locals :=
  let? (max_length, pairs, batch', lengths) := sort_and_truncate batch in
  let? arr := default_collate batch' in
  let y := np_zeros (shape0 arr) (shape1 arr) in
  let y := assign_columns_to_last y (columns_from_1 arr) in
  let x := transpose01 arr in
  Ok (mk_locals max_length pairs lengths arr y x).

(** ** process_line *)

(** A Python [str] is the sequence of its Unicode code points; a line of
    the corpus is such a string, whatever its script. *)
Abbreviation pystr := (list N).

(** The [str] of a literal written in ASCII: one code point per
    character. *)
Fixpoint text (s : string) : pystr :=
  match s with
  | EmptyString => []
  | String c s' => N_of_ascii c :: text s'
  end.

(** [a == b] on [str] *)
Fixpoint str_eqb (a b : pystr) : bool :=
  match a, b with
  | [], [] => true
  | c :: a', d :: b' => (c =? d)%N && str_eqb a' b'
  | _, _ => false
  end.

(** The vocabulary is a collaborator ([rulm.vocabulary.Vocabulary]): a
    token-to-index mapping that resolves an unknown token to its
    unknown-token index, an end-of-sequence index and a padding index. *)
Record Vocabulary : Type := mk_vocabulary {
  word_index : pystr -> Z;
  eos_index : Z;
  pad_index : Z
}.

(** Modelled from the spec: [Vocabulary.numericalize_inputs], whose source
    is not part of [nnlm.py]: each token is mapped to its vocabulary
    index, the token order being reversed first when [reverse] is set. *)
Definition numericalize_inputs (vocabulary : Vocabulary) (words : list pystr)
    (reverse : bool) : list Z :=
  map (word_index vocabulary) (if reverse then rev words else words).

(** Modelled from the spec: [Vocabulary.get_eos], the reserved
    end-of-sequence index. *)
Definition get_eos (vocabulary : Vocabulary) : Z := eos_index vocabulary.

(** Modelled from the spec: [Vocabulary.pad_indices], which pads with the
    padding index or truncates to exactly [max_length], keeping the
    earliest [max_length] elements. *)
Definition pad_indices (vocabulary : Vocabulary) (indices : list Z)
    (max_length : nat) : list Z :=
  firstn max_length
    (indices ++ repeat (pad_index vocabulary) (max_length - length indices)).

(** Whitespace of [str.strip] and [str.split], the code points for which
    [str.isspace] holds: U+0009 to U+000D, U+001C to U+0020, U+0085,
    U+00A0, U+1680, U+2000 to U+200A, U+2028, U+2029, U+202F, U+205F and
    U+3000. *)
Definition is_space (c : N) : bool :=
  (((9 <=? c) && (c <=? 13)) || ((28 <=? c) && (c <=? 32))
   || (c =? 133) || (c =? 160) || (c =? 5760)
   || ((8192 <=? c) && (c <=? 8202))
   || (c =? 8232) || (c =? 8233) || (c =? 8239) || (c =? 8287)
   || (c =? 12288))%N.

Fixpoint lstrip (s : pystr) : pystr :=
  match s with
  | c :: s' => if is_space c then lstrip s' else s
  | [] => []
  end.

(** [s.rstrip()]: a whitespace character is dropped when nothing but
    whitespace follows it. *)
Fixpoint rstrip (s : pystr) : pystr :=
  match s with
  | c :: s' =>
      match rstrip s' with
      | [] => if is_space c then [] else [c]
      | rest => c :: rest
      end
  | [] => []
  end.

(** [s.strip()] *)
Definition str_strip (s : pystr) : pystr := rstrip (lstrip s).

(** [s.split()] without separator: maximal runs of non-whitespace
    characters; [word] is the run being read. *)
Fixpoint split_from (word : pystr) (s : pystr) : list pystr :=
  match s with
  | c :: s' =>
      if is_space c
      then match word with
           | [] => split_from [] s'
           | _ => word :: split_from [] s'
           end
      else split_from (word ++ [c]) s'
  | [] =>
      match word with
      | [] => []
      | _ => [word]
      end
  end.

Definition str_split (s : pystr) : list pystr := split_from [] s.

(** A string with a whitespace character in it. *)
Fixpoint has_space (s : pystr) : bool :=
  match s with
  | c :: s' => is_space c || has_space s'
  | [] => false
  end.

(** A string of whitespace characters only. *)
Definition all_space (s : pystr) : bool := forallb is_space s.

(** The tokens [words] written out with the whitespace [gaps]: each token
    is followed by its gap. *)
Fixpoint weave (words gaps : list pystr) : pystr :=
  match words, gaps with
  | w :: words', g :: gaps' => w ++ g ++ weave words' gaps'
  | _, _ => []
  end.

(** The vocabulary of the scenario: the=1, cat=2, sat=3, any other token
    the unknown-token index 5, eos=4, pad=0. *)
Definition scenario_vocabulary : Vocabulary :=
  mk_vocabulary
    (fun w => if str_eqb w (text "the") then 1
              else if str_eqb w (text "cat") then 2
              else if str_eqb w (text "sat") then 3 else 5)%Z
    4%Z 0%Z.

(** [process_line]; [max_length] is a length, a natural number. *)
Definition process_line (line : pystr) (vocabulary : Vocabulary)
    (max_length : nat) (reverse : bool) : list Z :=
  let words := str_split (str_strip line) in
  let indices := numericalize_inputs vocabulary words reverse in
  let indices := indices ++ [get_eos vocabulary] in
  let indices := pad_indices vocabulary indices max_length in
  indices.

(** ** Values, closures and collaborator calls *)

Section Program.

(** The element type of floating-point tensors and [torch.exp] on one
    element; no arithmetic is done on them here. *)
Context {F : Type} (fexp : F -> F).

(** A floating-point tensor: its shape and its element at an index. *)
Record tensor : Type := mk_tensor {
  t_shape : list nat;
  t_at : list nat -> F
}.

Inductive pyval : Type :=
| VNone
| VBool (b : bool)
| VInt (z : Z)
| VLong (a : ndarray)
| VFloat (t : tensor)
| VObj (id : nat).

Inductive event : Type :=
| ITERATION_COMPLETED
| EPOCH_COMPLETED.

(** The functions that [nnlm.py] hands to its collaborators, each with
    the variables it closes over. *)
Inductive closure : Type :=
| closed_process_line (vocabulary : Vocabulary) (max_length : nat) (reverse : bool)
| collate_preprocess_batch
| update_fn (model optimizer loss_fn : pyval) (grad_clipping : Q)
| inference_fn (model : pyval)
| validate_fn (validate_every : Z) (evaluator loader start_time : pyval).

Inductive call : Type :=
| os_path_exists (file_name : string)
| StreamDataset (file_names : list string) (process : closure)
| DataLoader (dataset : pyval) (batch_size : Z) (collate_fn : closure)
| model_parameters (model : pyval)
| Adam_requires_grad (params : pyval) (lr : Q)
| cuda_is_available
| NLLLoss
| model_to (model : pyval) (device : string)
| Engine (process_function : closure)
| Loss (criterion : pyval)
| CategoricalAccuracy
| metric_attach (metric engine : pyval) (name : string)
| ModelCheckpoint (dirname prefix : string) (save_interval : Z) (create_dir : bool)
| add_event_handler (engine : pyval) (ev : event) (handler : pyval)
    (to_save : list (string * pyval))
| engine_on (engine : pyval) (ev : event) (handler : closure)
| datetime_now
| engine_run (engine data : pyval) (max_epochs : Z)
| model_train (model : pyval)
| model_eval (model : pyval)
| optimizer_zero_grad (optimizer : pyval)
| optimizer_step (optimizer : pyval)
| model_call (model x : pyval)
| model_call_lengths (model x lengths : pyval)
| model_forward (model x : pyval)
| loss_fn_call (loss_fn y_pred y : pyval)
| loss_backward (loss : pyval)
| clip_grad_norm_ (params : pyval) (max_norm : Q)
| loss_item (loss : pyval)
| no_grad_enter
| no_grad_exit
| state_iteration (engine : pyval)
| state_epoch (engine : pyval)
| state_metrics (engine : pyval)
| metrics_getitem (metrics : pyval) (key : string)
| print_report (epoch iteration now start_time loss accuracy : pyval).

(** What the collaborators answer: a function of the calls made so far
    and of the call. *)
Definition oracle : Type := list call -> call -> result pyval.

(** A computation reads the oracle, extends the trace of calls and
    returns a value or raises. *)
Definition M (A : Type) : Type := oracle -> list call -> result A * list call.

Definition ret {A : Type} (a : A) : M A := fun _ tr => (Ok a, tr).

Definition bind {A B : Type} (m : M A) (k : A -> M B) : M B :=
  fun env tr =>
    match m env tr with
    | (Ok a, tr') => k a env tr'
    | (Raise e, tr') => (Raise e, tr')
    end.

Definition lift {A : Type} (r : result A) : M A := fun _ tr => (r, tr).

Definition do_call (c : call) : M pyval := fun env tr => (env tr c, tr ++ [c]).

(** [with ctx: body]: the exit call is made whether [body] returns or
    raises, and an exception of [body] is not suppressed. *)
Definition with_context (enter leave : call) {A : Type} (body : M A) : M A :=
  fun env tr =>
    match do_call enter env tr with
    | (Raise e, tr1) => (Raise e, tr1)
    | (Ok _, tr1) =>
        match body env tr1 with
        | (r, tr2) =>
            match do_call leave env tr2 with
            | (Raise e, tr3) => (Raise e, tr3)
            | (Ok _, tr3) => (r, tr3)
            end
        end
    end.

(** The truth value of an object that is neither [None], a [bool] nor an
    [int] is the object's own ([__bool__] or [__len__]); it may raise. *)
Context (obj_truth : pyval -> result bool).

Definition py_truth (v : pyval) : result bool :=
  match v with
  | VNone => Ok false
  | VBool b => Ok b
  | VInt z => Ok (negb (z =? 0)%Z)
  | _ => obj_truth v
  end.

(** [d[key]] *)
Definition dict_getitem (d : gmap string pyval) (key : string) : result pyval :=
  match d !! key with
  | Some v => Ok v
  | None => Raise (KeyError key)
  end.

(** [a % b] on ints: the sign follows the divisor, as [Z.modulo] does. *)
Definition py_mod (a b : Z) : result Z :=
  if (b =? 0)%Z then Raise ZeroDivisionError else Ok (a mod b)%Z.

Definition as_int (v : pyval) : result Z :=
  match v with
  | VInt z => Ok z
  | VBool b => Ok (if b then 1 else 0)%Z
  | _ => Raise TypeError
  end.

Definition as_tensor (v : pyval) : result tensor :=
  match v with
  | VFloat t => Ok t
  | _ => Raise TypeError
  end.

(** [if s:] on a [str] *)
Definition str_truth (s : string) : bool :=
  match s with
  | EmptyString => false
  | _ => true
  end.

(** [if q:] on a number *)
Definition num_truth (q : Q) : bool := negb (Qeq_bool q 0).

Notation "'let*' x ':=' m 'in' k" := (bind m (fun x => k))
  (at level 10, x pattern, m at level 100, k at level 200).

(** ** preprocess_batch, as the collate function returns it *)

(** The dict [{"x": batch, "y": y}]. *)
Definition preprocess_batch (batch : list (list Z)) : result (gmap string pyval) :=
  let? st := preprocess_batch_locals batch in
  Ok (<["y" := VLong (l_y st)]> (<["x" := VLong (l_x st)]> ∅)).

(** ** The step functions *)

(** [x, y = batch["x"], batch["y"]], then
    [lengths = batch["lengths"] if "lengths" in batch else None] and the
    forward call [model(x, lengths) if lengths else model(x)]. *)
Definition forward_step (model : pyval) (batch : gmap string pyval)
  : M (pyval * pyval) :=
  let* x := lift (dict_getitem batch "x") in
  let* y := lift (dict_getitem batch "y") in
  let lengths := match batch !! "lengths" with Some l => l | None => VNone end in
  let* given := lift (py_truth lengths) in
  let* y_pred := (if given : bool
                  then do_call (model_call_lengths model x lengths)
                  else do_call (model_call model x)) in
  ret (y_pred, y).

(** [_update] of [create_lm_trainer]; the [engine] argument is unused. *)
Definition _update (model optimizer loss_fn : pyval) (grad_clipping : Q)
    (batch : gmap string pyval) : M pyval :=
  let* _ := do_call (model_train model) in
  let* _ := do_call (optimizer_zero_grad optimizer) in
  let* (y_pred, y) := forward_step model batch in
  let* loss := do_call (loss_fn_call loss_fn y_pred y) in
  let* _ := do_call (loss_backward loss) in
  let* _ := (if num_truth grad_clipping
             then let* params := do_call (model_parameters model) in
                  do_call (clip_grad_norm_ params grad_clipping)
             else ret VNone) in
  let* _ := do_call (optimizer_step optimizer) in
  do_call (loss_item loss).

(** [_inference] of [create_lm_evaluator] *)
Definition _inference (model : pyval) (batch : gmap string pyval)
  : M (pyval * pyval) :=
  let* _ := do_call (model_eval model) in
  with_context no_grad_enter no_grad_exit (forward_step model batch).

(** [if device: model.to(device)] *)
Definition move_to_device (model : pyval) (device : option string) : M pyval :=
  match device with
  | Some d => if str_truth d then do_call (model_to model d) else ret VNone
  | None => ret VNone
  end.

(** The default of [grad_clipping]. *)
Definition default_grad_clipping : Q := 5 # 1.

Definition create_lm_trainer (model optimizer loss_fn : pyval)
    (device : option string) (grad_clipping : Q) : M pyval :=
  let* _ := move_to_device model device in
  do_call (Engine (update_fn model optimizer loss_fn grad_clipping)).

(** [for name, metric in metrics.items(): metric.attach(engine, name)] *)
Fixpoint attach_metrics (engine : pyval) (metrics : list (string * pyval)) : M unit :=
  match metrics with
  | [] => ret tt
  | (name, metric) :: rest =>
      let* _ := do_call (metric_attach metric engine name) in
      attach_metrics engine rest
  end.

Definition create_lm_evaluator (model : pyval) (metrics : list (string * pyval))
    (device : option string) : M pyval :=
  let* _ := move_to_device model device in
  let* engine := do_call (Engine (inference_fn model)) in
  let* _ := attach_metrics engine metrics in
  ret engine.

(** ** train_file *)

(** The handler [validate] registered on [ITERATION_COMPLETED]. *)
Definition validate (validate_every : Z) (evaluator loader start_time : pyval)
    (trainer : pyval) : M unit :=
  let* iteration := do_call (state_iteration trainer) in
  let* i := lift (as_int iteration) in
  let* r := lift (py_mod i validate_every) in
  if (r =? 0)%Z
  then
    let* _ := do_call (engine_run evaluator loader 1) in
    let* metrics := do_call (state_metrics evaluator) in
    let* epoch := do_call (state_epoch trainer) in
    let* iteration := do_call (state_iteration trainer) in
    let* now := do_call datetime_now in
    let* loss := do_call (metrics_getitem metrics "loss") in
    let* accuracy := do_call (metrics_getitem metrics "accuracy") in
    let* _ := do_call (print_report epoch iteration now start_time loss accuracy) in
    ret tt
  else ret tt.

(** The body of [train_file] after the assertion. *)
Definition train_file_body (model : pyval) (vocabulary : Vocabulary) (reverse : bool)
    (file_name : string) (epochs batch_size : Z)
    (checkpoint_dir : option string) (checkpoint_every : Z)
    (max_length : nat) (validate_every : Z) : M unit :=
  let* dataset :=
    do_call (StreamDataset [file_name] (closed_process_line vocabulary max_length reverse)) in
  let* loader := do_call (DataLoader dataset batch_size collate_preprocess_batch) in
  let* params := do_call (model_parameters model) in
  let* optimizer := do_call (Adam_requires_grad params (1 # 1000)) in
  let* cuda := do_call cuda_is_available in
  let* has_cuda := lift (py_truth cuda) in
  let device := if has_cuda : bool then "cuda" else "cpu" in
  let* criterion := do_call NLLLoss in
  let* trainer :=
    create_lm_trainer model optimizer criterion (Some device) default_grad_clipping in
  let* loss_metric := do_call (Loss criterion) in
  let* accuracy_metric := do_call CategoricalAccuracy in
  let* evaluator :=
    create_lm_evaluator model [("loss", loss_metric); ("accuracy", accuracy_metric)] None in
  let* _ :=
    match checkpoint_dir with
    | Some dir =>
        if str_truth dir
        then let* checkpointer :=
               do_call (ModelCheckpoint dir "model" checkpoint_every true) in
             do_call (add_event_handler trainer EPOCH_COMPLETED checkpointer
                        [("model", model)])
        else ret VNone
    | None => ret VNone
    end in
  let* start_time := do_call datetime_now in
  let* _ := do_call (engine_on trainer ITERATION_COMPLETED
                       (validate_fn validate_every evaluator loader start_time)) in
  let* _ := do_call (engine_run trainer loader epochs) in
  ret tt.

(** [NNLanguageModel.train_file]; [model] is [self.model]. *)
Definition train_file (model : pyval) (vocabulary : Vocabulary) (reverse : bool)
    (file_name intermediate_dir : string) (epochs batch_size : Z)
    (checkpoint_dir : option string) (checkpoint_every : Z)
    (max_length : nat) (report_every validate_every : Z) : M unit :=
  let* found := do_call (os_path_exists file_name) in
  let* holds := lift (py_truth found) in
  if holds : bool
  then train_file_body model vocabulary reverse file_name epochs batch_size
         checkpoint_dir checkpoint_every max_length validate_every
  else lift (Raise AssertionError).

(** ** predict *)

(** The index with positions [d0] and [d1] exchanged. *)
Definition swap_dims {A : Type} (d0 d1 : nat) (dflt : A) (l : list A) : list A :=
  <[d0 := nth d1 l dflt]> (<[d1 := nth d0 l dflt]> l).

(** [t.transpose(d0, d1)]: a view with two dimensions exchanged. *)
Definition t_transpose (d0 d1 : nat) (t : tensor) : result tensor :=
  if (d0 <? length (t_shape t)) && (d1 <? length (t_shape t))
  then Ok (mk_tensor (swap_dims d0 d1 0 (t_shape t))
                     (fun idx => t_at t (swap_dims d0 d1 0 idx)))
  else Raise IndexError.

(** [torch.squeeze(t, d)]: dimension [d] is removed when its size is 1,
    and the tensor is returned unchanged otherwise. *)
Definition t_squeeze (d : nat) (t : tensor) : result tensor :=
  if d <? length (t_shape t)
  then if nth d (t_shape t) 0 =? 1
       then Ok (mk_tensor (firstn d (t_shape t) ++ skipn (S d) (t_shape t))
                          (fun idx => t_at t (firstn d idx ++ 0 :: skipn d idx)))
       else Ok t
  else Raise IndexError.

(** [t[-1]]: the last entry along the leading dimension. *)
Definition t_last (t : tensor) : result tensor :=
  match t_shape t with
  | [] => Raise IndexError
  | n :: rest =>
      if n =? 0 then Raise IndexError
      else Ok (mk_tensor rest (fun idx => t_at t ((n - 1) :: idx)))
  end.

(** [torch.exp(t)]; [.cpu().detach().numpy()] keeps shape and elements. *)
Definition t_exp (t : tensor) : tensor :=
  mk_tensor (t_shape t) (fun idx => fexp (t_at t idx)).

(** [torch.unsqueeze(LongTensor(indices), 1)]: one column, a row per
    time step. *)
Definition unsqueeze_indices (indices : list Z) : ndarray :=
  mk_ndarray (length indices) 1 (map (fun i => [i]) indices).

(** [NNLanguageModel.predict]; [model] is [self.model]. *)
Definition predict (model : pyval) (indices : list Z) : M tensor :=
  let* _ := do_call (model_eval model) in
  let* _ := do_call cuda_is_available in
  let x := unsqueeze_indices indices in
  let* out := do_call (model_forward model (VLong x)) in
  let* result := lift (as_tensor out) in
  let* result := lift (t_transpose 1 2 result) in
  let* result := lift (t_transpose 0 1 result) in
  let* squeezed := lift (t_squeeze 1 result) in
  let* final := lift (t_last squeezed) in
  ret (t_exp final).

(** ** Reading a trace *)

(** The collaborator operation behind a call, as the source names it. *)
Definition call_name (c : call) : string :=
  match c with
  | os_path_exists _ => "os.path.exists"
  | StreamDataset _ _ => "StreamDataset"
  | DataLoader _ _ _ => "DataLoader"
  | model_parameters _ => "model.parameters"
  | Adam_requires_grad _ _ => "torch.optim.Adam"
  | cuda_is_available => "torch.cuda.is_available"
  | NLLLoss => "nn.NLLLoss"
  | model_to _ _ => "model.to"
  | Engine _ => "Engine"
  | Loss _ => "Loss"
  | CategoricalAccuracy => "CategoricalAccuracy"
  | metric_attach _ _ _ => "metric.attach"
  | ModelCheckpoint _ _ _ _ => "ModelCheckpoint"
  | add_event_handler _ _ _ _ => "add_event_handler"
  | engine_on _ _ _ => "trainer.on"
  | datetime_now => "datetime.now"
  | engine_run _ _ _ => "run"
  | model_train _ => "model.train"
  | model_eval _ => "model.eval"
  | optimizer_zero_grad _ => "optimizer.zero_grad"
  | optimizer_step _ => "optimizer.step"
  | model_call _ _ => "model(x)"
  | model_call_lengths _ _ _ => "model(x, lengths)"
  | model_forward _ _ => "model.forward"
  | loss_fn_call _ _ _ => "loss_fn"
  | loss_backward _ => "loss.backward"
  | clip_grad_norm_ _ _ => "clip_grad_norm_"
  | loss_item _ => "loss.item"
  | no_grad_enter => "no_grad.__enter__"
  | no_grad_exit => "no_grad.__exit__"
  | state_iteration _ => "state.iteration"
  | state_epoch _ => "state.epoch"
  | state_metrics _ => "state.metrics"
  | metrics_getitem _ _ => "metrics[]"
  | print_report _ _ _ _ _ _ => "print"
  end.

(** The operations of one training step, in the order of the source. *)
Definition update_order (with_lengths : bool) : list string :=
  ["model.train"; "optimizer.zero_grad";
   if with_lengths then "model(x, lengths)" else "model(x)";
   "loss_fn"; "loss.backward"; "model.parameters"; "clip_grad_norm_";
   "optimizer.step"; "loss.item"].

(** The exception [e] was raised by the last call of the trace [tr]. *)
Definition raised_by_last_call (env : oracle) (tr : list call) (e : exn) : Prop :=
  exists before c, tr = before ++ [c] /\ env before c = Raise e.

Definition is_call_with_lengths (c : call) : bool :=
  match c with
  | model_call_lengths _ _ _ => true
  | _ => false
  end.

(** An invocation of the model, of either form. *)
Definition is_forward_call (c : call) : bool :=
  match c with
  | model_call _ _ | model_call_lengths _ _ _ => true
  | _ => false
  end.

(** A computation only ever appends to the trace. *)
Definition extends_trace {A : Type} (m : M A) : Prop :=
  forall env tr, exists new, snd (m env tr) = tr ++ new.

End Program.

(** ** Definitions for the further properties *)

(** [" ".join(words)] *)
Fixpoint join_words (words : list pystr) : pystr :=
  match words with
  | [] => []
  | [w] => w
  | w :: rest => w ++ 32%N :: join_words rest
  end.

(** * Facts *)

(** ** The stable descending sort *)

Section SortFacts.
Context {A : Type} (key : A -> nat).

Lemma insert_desc_perm a l : Permutation (insert_desc key a l) (a :: l).
Proof.
  induction l as [|b r IH]; simpl; [reflexivity|].
  destruct (key a <? key b); [|reflexivity].
  rewrite IH. apply perm_swap.
Qed.

Lemma sorted_reverse_perm l : Permutation (sorted_reverse key l) l.
Proof.
  induction l as [|a l IH]; simpl; [constructor|].
  rewrite insert_desc_perm. now constructor.
Qed.

Lemma insert_desc_descending a l :
  descending key l -> descending key (insert_desc key a l).
Proof.
  unfold descending.
  induction l as [|b r IH]; simpl; intros Hs.
  - repeat constructor.
  - inversion Hs as [|? ? Hr Hb]; subst.
    destruct (Nat.ltb_spec (key a) (key b)) as [Hlt|Hge].
    + constructor; [now apply IH|].
      rewrite (List.Forall_forall (fun y => key y <= key b)).
      intros y Hy.
      apply (Permutation_in _ (insert_desc_perm a r)) in Hy.
      destruct Hy as [<-|Hy]; [lia|].
      rewrite List.Forall_forall in Hb. now apply Hb.
    + constructor; [assumption|].
      constructor; [assumption|].
      eapply List.Forall_impl; [|exact Hb]. simpl. intros; lia.
Qed.

Lemma sorted_reverse_descending l : descending key (sorted_reverse key l).
Proof.
  induction l as [|a l IH]; simpl; [constructor|].
  now apply insert_desc_descending.
Qed.

Lemma insert_desc_stable k a l :
  List.filter (fun b => key b =? k) (insert_desc key a l)
  = List.filter (fun b => key b =? k) (a :: l).
Proof.
  induction l as [|b r IH]; [reflexivity|].
  simpl insert_desc.
  destruct (Nat.ltb_spec (key a) (key b)) as [Hlt|Hge]; [|reflexivity].
  simpl in *. rewrite IH.
  destruct (Nat.eqb_spec (key a) k), (Nat.eqb_spec (key b) k); try reflexivity; lia.
Qed.

Lemma sorted_reverse_stable k l :
  List.filter (fun b => key b =? k) (sorted_reverse key l)
  = List.filter (fun b => key b =? k) l.
Proof.
  induction l as [|a l IH]; [reflexivity|].
  simpl sorted_reverse. rewrite insert_desc_stable. simpl. now rewrite IH.
Qed.

Lemma sorted_reverse_fixed l : descending key l -> sorted_reverse key l = l.
Proof.
  unfold descending.
  induction l as [|a l IH]; [reflexivity|]; intros Hs.
  inversion Hs as [|? ? Hl Ha]; subst.
  simpl. rewrite IH by assumption.
  destruct l as [|b r]; [reflexivity|]. simpl.
  inversion Ha as [|? ? Hb _]; subst.
  destruct (Nat.ltb_spec (key a) (key b)); [lia|reflexivity].
Qed.

Lemma insert_desc_map a l :
  map key (insert_desc key a l) = insert_desc (fun n => n) (key a) (map key l).
Proof.
  induction l as [|b r IH]; [reflexivity|]. simpl.
  destruct (key a <? key b); simpl; [now rewrite IH|reflexivity].
Qed.

Lemma sorted_reverse_map l :
  map key (sorted_reverse key l) = list_sort_reverse (map key l).
Proof.
  unfold list_sort_reverse.
  induction l as [|a l IH]; [reflexivity|]. simpl.
  now rewrite insert_desc_map, IH.
Qed.

Lemma sorted_reverse_length l : length (sorted_reverse key l) = length l.
Proof. apply Permutation_length, sorted_reverse_perm. Qed.
End SortFacts.

(** ** Maximum, effective length and stacking *)

Section BatchFacts.

Lemma fold_max_ge r : forall n, n <= fold_left Nat.max r n.
Proof.
  induction r as [|a r IH]; intros n; simpl; [lia|].
  specialize (IH (Nat.max n a)). lia.
Qed.

Lemma fold_max_bound r : forall n, Forall (fun k => k <= fold_left Nat.max r n) r.
Proof.
  induction r as [|a r IH]; intros n; simpl; constructor.
  - pose proof (fold_max_ge r (Nat.max n a)). lia.
  - apply IH.
Qed.

Lemma fold_max_in r : forall n, fold_left Nat.max r n = n \/ In (fold_left Nat.max r n) r.
Proof.
  induction r as [|a r IH]; intros n; simpl; [now left|].
  destruct (IH (Nat.max n a)) as [H|H]; [|now right; right].
  rewrite H. destruct (Nat.max_spec n a) as [[_ ->]|[_ ->]]; [right; now left|now left].
Qed.

Lemma py_max_spec l m :
  py_max l = Ok m -> In m l /\ Forall (fun k => k <= m) l.
Proof.
  destruct l as [|n r]; simpl; [discriminate|].
  intros [= <-]. split.
  - destruct (fold_max_in r n) as [->|H]; [now left|now right].
  - constructor; [apply fold_max_ge|apply fold_max_bound].
Qed.

Lemma py_max_nonempty l : l <> [] -> exists m, py_max l = Ok m.
Proof. destruct l; [congruence|]. intros _. eexists. reflexivity. Qed.

Lemma effective_length_le sample : effective_length sample <= length sample.
Proof. unfold effective_length. apply List.filter_length_le. Qed.

Lemma default_collate_inv b arr :
  default_collate b = Ok arr ->
  b <> [] /\ rows arr = b /\ shape0 arr = length b /\
  Forall (fun row => length row = shape1 arr) b.
Proof.
  unfold default_collate. destruct b as [|elem rest]; [discriminate|].
  destruct (forallb _ _) eqn:Hall; [|discriminate].
  intros [= <-]. simpl. repeat split; [discriminate|].
  rewrite forallb_forall in Hall. apply List.Forall_forall.
  intros row Hin. apply Nat.eqb_eq. now apply Hall.
Qed.

Lemma default_collate_rect b n :
  b <> [] -> Forall (fun row => length row = n) b ->
  default_collate b = Ok (mk_ndarray (length b) n b).
Proof.
  destruct b as [|elem rest]; [congruence|]. intros _ Hall.
  unfold default_collate.
  assert (Hn : length elem = n) by now inversion Hall.
  replace (forallb _ _) with true; [now rewrite Hn|].
  symmetry. apply forallb_forall. intros row Hin.
  rewrite List.Forall_forall in Hall. apply Nat.eqb_eq.
  rewrite Hn. now apply Hall.
Qed.
End BatchFacts.
(** ** preprocess_batch *)

(** The row that [y[:, :-1] = batch[:, 1:]] leaves in a zero array of
    width [w]. *)
Lemma combine_repeat_l {A B : Type} (a : A) (l : list B) :
  combine (repeat a (length l)) l = map (pair a) l.
Proof. induction l as [|b l IH]; simpl; [reflexivity|now rewrite IH]. Qed.

Lemma shifted_rows arr :
  shape0 arr = length (rows arr) ->
  rows (assign_columns_to_last (np_zeros (shape0 arr) (shape1 arr)) (columns_from_1 arr))
  = map (fun row => skipn 1 row ++ skipn (shape1 arr - 1) (repeat 0%Z (shape1 arr)))
      (rows arr).
Proof.
  intros Hn. unfold assign_columns_to_last, np_zeros, columns_from_1. simpl.
  rewrite Hn, <- (length_map (skipn 1) (rows arr)), combine_repeat_l.
  now rewrite !map_map.
Qed.

Lemma shifted_row_spec w (row : list Z) :
  length row = w ->
  let yrow := skipn 1 row ++ skipn (w - 1) (repeat 0%Z w) in
  length yrow = w /\
  (forall t, t + 1 < w -> nth_error yrow t = nth_error row (t + 1)) /\
  (forall t, t + 1 = w -> nth_error yrow t = Some 0%Z).
Proof.
  intros Hw yrow. subst yrow.
  assert (Hs : length (skipn 1 row) = w - 1) by (rewrite length_skipn; lia).
  repeat split.
  - rewrite length_app, Hs, length_skipn, repeat_length. lia.
  - intros t Ht. rewrite nth_error_app1 by lia.
    rewrite nth_error_skipn. f_equal. lia.
  - intros t Ht. rewrite nth_error_app2 by lia.
    rewrite Hs, nth_error_skipn, nth_error_repeat by lia. reflexivity.
Qed.

Lemma transpose01_lookup arr i t row :
  nth_error (rows arr) i = Some row -> t < shape1 arr ->
  exists col, nth_error (rows (transpose01 arr)) t = Some col /\
              nth_error col i = Some (nth t row 0%Z).
Proof.
  intros Hi Ht. unfold transpose01. simpl.
  exists (map (fun r => nth t r 0%Z) (rows arr)). split.
  - rewrite nth_error_map, nth_error_seq.
    destruct (Nat.ltb_spec t (shape1 arr)); [reflexivity|lia].
  - now rewrite nth_error_map, Hi.
Qed.

Lemma sort_and_truncate_inv batch W pairs rows' lengths :
  sort_and_truncate batch = Ok (W, pairs, rows', lengths) ->
  py_max (map effective_length batch) = Ok W /\
  pairs = sorted_reverse snd (combine batch (map effective_length batch)) /\
  rows' = map (fun p => firstn W (fst p)) pairs /\
  lengths = list_sort_reverse (map effective_length batch).
Proof.
  unfold sort_and_truncate.
  destruct (py_max (map effective_length batch)) as [m|e]; simpl; [|discriminate].
  intros [= <- <- <- <-]. repeat split.
Qed.

Lemma preprocess_batch_locals_inv batch st :
  preprocess_batch_locals batch = Ok st ->
  sort_and_truncate batch
    = Ok (l_max_length st, l_pairs st, rows (l_batch st), l_lengths st) /\
  default_collate (rows (l_batch st)) = Ok (l_batch st) /\
  l_y st = assign_columns_to_last
             (np_zeros (shape0 (l_batch st)) (shape1 (l_batch st)))
             (columns_from_1 (l_batch st)) /\
  l_x st = transpose01 (l_batch st).
Proof.
  unfold preprocess_batch_locals.
  destruct (sort_and_truncate batch) as [[[[W pairs] rows'] lengths]|e]; simpl;
    [|discriminate].
  destruct (default_collate rows') as [arr|e] eqn:Hc; simpl; [|discriminate].
  intros [= <-]. simpl.
  destruct (default_collate_inv _ _ Hc) as (_ & Hrows & _).
  rewrite Hrows. repeat split; try reflexivity. exact Hc.
Qed.

Lemma combine_map_r {A B : Type} (f : A -> B) (l : list A) :
  combine l (map f l) = map (fun a => (a, f a)) l.
Proof. induction l as [|a l IH]; simpl; [reflexivity|now rewrite IH]. Qed.

Lemma pairs_own_length batch :
  Forall (fun p => snd p = effective_length (fst p))
    (sorted_reverse snd (combine batch (map effective_length batch))).
Proof.
  apply List.Forall_forall. intros p Hp.
  apply (Permutation_in _ (sorted_reverse_perm snd _)) in Hp.
  rewrite combine_map_r in Hp. apply in_map_iff in Hp.
  destruct Hp as (a & <- & _). reflexivity.
Qed.

(** The stacked array has the working length as its width. *)
Lemma working_width batch st :
  preprocess_batch_locals batch = Ok st ->
  shape1 (l_batch st) = l_max_length st /\
  shape0 (l_batch st) = length batch /\
  length (rows (l_batch st)) = length batch /\
  Forall (fun row => length row = l_max_length st) (rows (l_batch st)).
Proof.
  intros H. destruct (preprocess_batch_locals_inv _ _ H) as (Hs & Hc & _ & _).
  destruct (sort_and_truncate_inv _ _ _ _ _ Hs) as (Hmax & Hp & Hr & _).
  destruct (default_collate_inv _ _ Hc) as (_ & _ & Hn & Hall).
  destruct (py_max_spec _ _ Hmax) as (Hin & _).
  assert (Hlen : length (rows (l_batch st)) = length batch).
  { rewrite Hr, length_map, Hp, sorted_reverse_length, length_combine, length_map. lia. }
  assert (Hw : shape1 (l_batch st) = l_max_length st).
  { apply in_map_iff in Hin. destruct Hin as (s & Hs' & Hsin).
    assert (Hpin : In (s, l_max_length st) (l_pairs st)).
    { rewrite Hp. apply (Permutation_in _ (Permutation_sym (sorted_reverse_perm snd _))).
      rewrite combine_map_r. apply in_map_iff. exists s. now rewrite Hs'. }
    assert (Hrin : In (firstn (l_max_length st) s) (rows (l_batch st))).
    { rewrite Hr. apply in_map_iff. now exists (s, l_max_length st). }
    rewrite List.Forall_forall in Hall. rewrite <- (Hall _ Hrin).
    rewrite length_firstn. pose proof (effective_length_le s). lia. }
  repeat split; [exact Hw|lia|exact Hlen|].
  now rewrite <- Hw.
Qed.

Lemma preprocess_batch_dict {F : Type} batch (d : gmap string (@pyval F)) :
  preprocess_batch batch = Ok d ->
  exists st, preprocess_batch_locals batch = Ok st /\
             d = <["y" := VLong (l_y st)]> (<["x" := VLong (l_x st)]> ∅).
Proof.
  unfold preprocess_batch.
  destruct (preprocess_batch_locals batch) as [st|e]; simpl; [|discriminate].
  intros [= <-]. now exists st.
Qed.

(** A batch of equally long sequences is assembled without error. *)
Lemma preprocess_batch_locals_total batch n :
  batch <> [] -> Forall (fun sample => length sample = n) batch ->
  exists st, preprocess_batch_locals batch = Ok st.
Proof.
  intros Hne Hall.
  destruct (py_max_nonempty (map effective_length batch)) as [W HW].
  { destruct batch; [congruence|discriminate]. }
  unfold preprocess_batch_locals, sort_and_truncate. rewrite HW. simpl.
  set (pairs := sorted_reverse snd (combine batch (map effective_length batch))).
  assert (Hrect : Forall (fun row => length row = W)
                    (map (fun p => firstn W (fst p)) pairs)).
  { apply List.Forall_forall. intros row Hrow.
    apply in_map_iff in Hrow. destruct Hrow as (p & <- & Hp).
    apply (Permutation_in _ (sorted_reverse_perm snd _)) in Hp.
    rewrite combine_map_r in Hp. apply in_map_iff in Hp.
    destruct Hp as (s & <- & Hs). simpl.
    destruct (py_max_spec _ _ HW) as (Hin & _).
    apply in_map_iff in Hin. destruct Hin as (s' & Hs' & Hin').
    rewrite List.Forall_forall in Hall.
    pose proof (Hall _ Hs). pose proof (Hall _ Hin').
    pose proof (effective_length_le s').
    rewrite length_firstn. lia. }
  rewrite (default_collate_rect _ W); [simpl; eauto| |exact Hrect].
  intros Hnil. apply (f_equal (@length _)) in Hnil.
  rewrite length_map in Hnil. unfold pairs in Hnil.
  rewrite sorted_reverse_length, length_combine, length_map in Hnil.
  destruct batch; [congruence|simpl in Hnil; lia].
Qed.

(** C1: for every batch that [preprocess_batch] assembles, the target
    array [y] is the sorted, truncated, not yet transposed input array
    shifted one position left along the time axis: [y[i][t] = x[i][t+1]]
    for every sample [i] and every [t] with [t + 1] below the working
    length, and the final time position of every row of [y] is the padding
    index 0.  The returned ["x"] is that input array transposed, and
    ["y"] is the target array. *)
Theorem preprocess_batch_targets_shift_left {F : Type}
    (batch : list (list Z)) (d : gmap string (@pyval F)) :
  preprocess_batch batch = Ok d ->
  exists st,
    preprocess_batch_locals batch = Ok st /\
    d !! "x" = Some (VLong (l_x st)) /\
    d !! "y" = Some (VLong (l_y st)) /\
    shape0 (l_y st) = length batch /\
    shape1 (l_y st) = l_max_length st /\
    length (rows (l_y st)) = length batch /\
    forall i xrow,
      nth_error (rows (l_batch st)) i = Some xrow ->
      exists yrow,
        nth_error (rows (l_y st)) i = Some yrow /\
        length yrow = l_max_length st /\
        (forall t, t + 1 < l_max_length st ->
                   nth_error yrow t = nth_error xrow (t + 1)) /\
        (forall t, t + 1 = l_max_length st -> nth_error yrow t = Some 0%Z) /\
        (forall t, t < l_max_length st ->
                   exists col, nth_error (rows (l_x st)) t = Some col /\
                               nth_error col i = nth_error xrow t).
Proof.
  intros Hd. destruct (preprocess_batch_dict _ _ Hd) as (st & Hst & ->).
  exists st. split; [exact Hst|].
  destruct (preprocess_batch_locals_inv _ _ Hst) as (_ & _ & Hy & Hx).
  destruct (working_width _ _ Hst) as (Hw & Hn & Hlen & Hall).
  assert (Hrows : rows (l_y st)
                  = map (fun row => skipn 1 row
                                    ++ skipn (l_max_length st - 1)
                                         (repeat 0%Z (l_max_length st)))
                      (rows (l_batch st))).
  { rewrite Hy, shifted_rows by lia. now rewrite Hw. }
  split; [reflexivity|]. split; [reflexivity|].
  split; [rewrite Hy; simpl; lia|].
  split; [rewrite Hy; simpl; lia|].
  split; [rewrite Hrows, length_map; lia|].
  intros i xrow Hi.
  assert (Hxl : length xrow = l_max_length st).
  { rewrite List.Forall_forall in Hall. apply Hall. eapply nth_error_In, Hi. }
  destruct (shifted_row_spec _ _ Hxl) as (Hyl & Hshift & Hlast).
  eexists. split; [rewrite Hrows, nth_error_map, Hi; reflexivity|].
  split; [exact Hyl|]. split; [exact Hshift|]. split; [exact Hlast|].
  intros t Ht.
  destruct (transpose01_lookup (l_batch st) i t xrow Hi) as (col & Hc1 & Hc2); [lia|].
  exists col. rewrite Hx. split; [exact Hc1|].
  rewrite Hc2. symmetry. apply nth_error_nth'. lia.
Qed.

Lemma preprocess_batch_targets_shift_left_witness :
  exists d : gmap string (@pyval Z),
    preprocess_batch [[1; 2; 0; 0]; [3; 4; 5; 0]]%Z = Ok d /\
    d !! "y" = Some (VLong (mk_ndarray 2 3 [[4; 5; 0]; [2; 0; 0]]%Z)) /\
    d !! "x" = Some (VLong (mk_ndarray 3 2 [[3; 1]; [4; 2]; [5; 0]]%Z)).
Proof.
  eexists. split; [reflexivity|].
  destruct (preprocess_batch_targets_shift_left (F:=Z)
              [[1; 2; 0; 0]; [3; 4; 5; 0]]%Z _ eq_refl)
    as (st & Hst & Hx & Hy & _).
  injection Hst as <-. split; [exact Hy|exact Hx].
Defined.

Lemma effective_length_zeros (l : list Z) :
  forallb (fun e => (e =? 0)%Z) l = true -> effective_length l = 0.
Proof.
  unfold effective_length. induction l as [|e l IH]; simpl; [reflexivity|].
  destruct (e =? 0)%Z; simpl; [exact IH|discriminate].
Qed.

Lemma forallb_firstn {A : Type} (f : A -> bool) n (l : list A) :
  forallb f l = true -> forallb f (firstn n l) = true.
Proof.
  revert n. induction l as [|a l IH]; intros [|n]; simpl; try reflexivity.
  destruct (f a); simpl; [apply IH|discriminate].
Qed.

(** Truncation at or beyond the effective length keeps every real token of
    a sequence padded at its end. *)
Lemma effective_length_firstn (sample : list Z) :
  padded_at_end sample = true ->
  forall W, effective_length sample <= W ->
            effective_length (firstn W sample) = effective_length sample.
Proof.
  induction sample as [|e r IH]; intros Hp W HW.
  - now rewrite firstn_nil.
  - simpl in Hp. destruct (e =? 0)%Z eqn:He.
    + rewrite (effective_length_zeros (e :: r)) by (simpl; now rewrite He).
      apply effective_length_zeros, forallb_firstn. simpl. now rewrite He.
    + unfold effective_length in *. simpl in HW. rewrite He in HW. simpl in HW.
      destruct W as [|W]; [lia|]. simpl. rewrite He. simpl.
      f_equal. apply IH; [exact Hp|lia].
Qed.

(** C2: after assembly the samples stand in descending order of effective
    length; the sort is stable (the samples of any one effective length
    keep their input order, so a batch whose lengths are all equal keeps
    its input order); every sample stays paired with its own effective
    length, and the sorted list of lengths lists these lengths in the same
    order; a single-sample batch is assembled without error. *)
Theorem preprocess_batch_sorts_stably :
  (forall sample : list Z,
     exists st, preprocess_batch_locals [sample] = Ok st /\
                rows (l_batch st) = [firstn (effective_length sample) sample]) /\
  (forall batch st,
     preprocess_batch_locals batch = Ok st ->
     let input := combine batch (map effective_length batch) in
     Permutation (l_pairs st) input /\
     Forall (fun p => snd p = effective_length (fst p)) (l_pairs st) /\
     descending snd (l_pairs st) /\
     (forall k, List.filter (fun p => snd p =? k) (l_pairs st)
                = List.filter (fun p => snd p =? k) input) /\
     (forall k, Forall (fun sample => effective_length sample = k) batch ->
                map fst (l_pairs st) = batch) /\
     rows (l_batch st)
       = map (fun p => firstn (l_max_length st) (fst p)) (l_pairs st) /\
     l_lengths st = map snd (l_pairs st) /\
     descending (fun n => n) (l_lengths st) /\
     (Forall (fun sample => padded_at_end sample = true) batch ->
      map effective_length (rows (l_batch st)) = l_lengths st)).
Proof.
  split.
  - intros sample.
    unfold preprocess_batch_locals, sort_and_truncate, default_collate. simpl.
    rewrite Nat.eqb_refl. simpl. eexists. split; reflexivity.
  - intros batch st Hst input.
    destruct (preprocess_batch_locals_inv _ _ Hst) as (Hs & _).
    destruct (sort_and_truncate_inv _ _ _ _ _ Hs) as (Hmax & Hp & Hr & Hl).
    fold input in Hp.
    split; [rewrite Hp; apply sorted_reverse_perm|].
    split; [rewrite Hp; apply pairs_own_length|].
    split; [rewrite Hp; apply sorted_reverse_descending|].
    split; [intros k; rewrite Hp; apply sorted_reverse_stable|].
    split.
    + intros k Hk. rewrite Hp, sorted_reverse_fixed.
      * unfold input. rewrite combine_map_r, map_map. simpl. apply map_id.
      * unfold input, descending. rewrite combine_map_r.
        clear -Hk. induction batch as [|s b IH]; simpl; constructor.
        -- apply IH. now inversion Hk.
        -- inversion Hk as [|? ? Hs Hb]; subst.
           apply List.Forall_forall. intros p Hin. apply in_map_iff in Hin.
           destruct Hin as (s' & <- & Hin'). simpl.
           rewrite List.Forall_forall in Hb. rewrite (Hb _ Hin'). lia.
    + split; [exact Hr|].
      assert (Hlen : l_lengths st = map snd (l_pairs st)).
      { rewrite Hl, Hp. unfold input. rewrite sorted_reverse_map. f_equal.
        rewrite combine_map_r, map_map. reflexivity. }
      split; [exact Hlen|].
      split; [rewrite Hl; apply sorted_reverse_descending|].
      intros Hpad. rewrite Hlen, Hr, map_map. apply map_ext_in.
      intros p Hin. rewrite Hp in Hin.
      apply (Permutation_in _ (sorted_reverse_perm snd _)) in Hin.
      unfold input in Hin. rewrite combine_map_r in Hin.
      apply in_map_iff in Hin. destruct Hin as (s & <- & Hsin). simpl.
      rewrite List.Forall_forall in Hpad.
      apply effective_length_firstn; [now apply Hpad|].
      destruct (py_max_spec _ _ Hmax) as (_ & Hle).
      rewrite List.Forall_forall in Hle. apply Hle. now apply in_map.
Qed.

Lemma preprocess_batch_sorts_stably_witness :
  exists st,
    preprocess_batch_locals [[1; 0; 0]; [2; 3; 0]; [4; 0; 0]; [5; 6; 0]]%Z = Ok st /\
    l_pairs st = [([2; 3; 0]%Z, 2); ([5; 6; 0]%Z, 2); ([1; 0; 0]%Z, 1); ([4; 0; 0]%Z, 1)] /\
    l_lengths st = map snd (l_pairs st) /\
    rows (l_batch st) = [[2; 3]; [5; 6]; [1; 0]; [4; 0]]%Z.
Proof.
  eexists. split; [reflexivity|]. split; [reflexivity|].
  split; [|reflexivity].
  destruct (proj2 preprocess_batch_sorts_stably
              [[1; 0; 0]; [2; 3; 0]; [4; 0; 0]; [5; 6; 0]]%Z _ eq_refl)
    as (_ & _ & _ & _ & _ & _ & Hlengths & _).
  exact Hlengths.
Defined.

(** C3: the working length is the maximum effective length over the
    batch, not the fixed length of the encoded sequences, and every
    sequence is truncated to exactly that length: the stacked array has
    one row per sample and the working length as its width, and the
    returned input array is its transpose. *)
Theorem preprocess_batch_working_length (batch : list (list Z)) (st : batch_locals) :
  preprocess_batch_locals batch = Ok st ->
  py_max (map effective_length batch) = Ok (l_max_length st) /\
  In (l_max_length st) (map effective_length batch) /\
  Forall (fun n => n <= l_max_length st) (map effective_length batch) /\
  rows (l_batch st) = map (fun p => firstn (l_max_length st) (fst p)) (l_pairs st) /\
  Forall (fun row => length row = l_max_length st) (rows (l_batch st)) /\
  length (rows (l_batch st)) = length batch /\
  shape0 (l_batch st) = length batch /\
  shape1 (l_batch st) = l_max_length st /\
  shape0 (l_x st) = l_max_length st /\
  shape1 (l_x st) = length batch /\
  length (rows (l_x st)) = l_max_length st.
Proof.
  intros Hst.
  destruct (preprocess_batch_locals_inv _ _ Hst) as (Hs & _ & _ & Hx).
  destruct (sort_and_truncate_inv _ _ _ _ _ Hs) as (Hmax & _ & Hr & _).
  destruct (py_max_spec _ _ Hmax) as (Hin & Hle).
  destruct (working_width _ _ Hst) as (Hw & Hn & Hlen & Hall).
  repeat split; try assumption; rewrite Hx; simpl; try lia.
  rewrite length_map, length_seq. exact Hw.
Qed.

Lemma preprocess_batch_working_length_witness :
  exists st,
    preprocess_batch_locals [[1; 2; 0; 0; 0; 0; 0]; [3; 4; 5; 6; 7; 0; 0]]%Z = Ok st /\
    map effective_length [[1; 2; 0; 0; 0; 0; 0]; [3; 4; 5; 6; 7; 0; 0]]%Z = [2; 5] /\
    l_max_length st = 5 /\
    rows (l_batch st) = [[3; 4; 5; 6; 7]; [1; 2; 0; 0; 0]]%Z /\
    Forall (fun row => length row = l_max_length st) (rows (l_batch st)).
Proof.
  eexists. split; [reflexivity|]. split; [reflexivity|].
  split; [reflexivity|]. split; [reflexivity|].
  apply (preprocess_batch_working_length
           [[1; 2; 0; 0; 0; 0; 0]; [3; 4; 5; 6; 7; 0; 0]]%Z _ eq_refl).
Defined.

(** The scenario of the specification: two equally long sequences of
    effective lengths 5 and 2, in either order, give two rows of width 5
    with the longer sample first. *)
Lemma lengths_5_and_2 (s5 s2 : list Z) :
  length s5 = length s2 -> effective_length s5 = 5 -> effective_length s2 = 2 ->
  exists st st',
    preprocess_batch_locals [s2; s5] = Ok st /\
    preprocess_batch_locals [s5; s2] = Ok st' /\
    rows (l_batch st) = [firstn 5 s5; firstn 5 s2] /\
    rows (l_batch st') = [firstn 5 s5; firstn 5 s2] /\
    length (firstn 5 s5) = 5 /\ length (firstn 5 s2) = 5.
Proof.
  intros Hlen H5 H2.
  pose proof (effective_length_le s5) as Hle.
  assert (Hl5 : length (firstn 5 s5) = 5) by (rewrite length_firstn; lia).
  assert (Hl2 : length (firstn 5 s2) = 5) by (rewrite length_firstn; lia).
  unfold preprocess_batch_locals, sort_and_truncate, default_collate. simpl.
  rewrite H5, H2. simpl. rewrite Hl5, Hl2. simpl.
  do 2 eexists. repeat split; reflexivity.
Qed.

(** C10: on an empty list the maximum of the effective lengths has no
    value and [preprocess_batch] raises; on every non-empty list the
    maximum exists and the length computation, the sort and the truncation
    complete, and a non-empty list of equally long sequences is assembled
    into a batch. *)
Theorem preprocess_batch_needs_nonempty :
  py_max (map effective_length []) = Raise ValueError /\
  preprocess_batch_locals [] = Raise ValueError /\
  (forall F : Type, @preprocess_batch F [] = Raise ValueError) /\
  (forall batch : list (list Z),
     batch <> [] ->
     exists W pairs rows' lengths,
       py_max (map effective_length batch) = Ok W /\
       sort_and_truncate batch = Ok (W, pairs, rows', lengths) /\
       length rows' = length batch) /\
  (forall (batch : list (list Z)) (n : nat),
     batch <> [] -> Forall (fun sample => length sample = n) batch ->
     exists st, preprocess_batch_locals batch = Ok st).
Proof.
  split; [reflexivity|]. split; [reflexivity|]. split; [reflexivity|]. split.
  - intros batch Hne.
    destruct (py_max_nonempty (map effective_length batch)) as [W HW].
    { destruct batch; [congruence|discriminate]. }
    unfold sort_and_truncate. rewrite HW. simpl.
    do 4 eexists. split; [reflexivity|]. split; [reflexivity|].
    rewrite length_map, sorted_reverse_length, length_combine, length_map. lia.
  - apply preprocess_batch_locals_total.
Qed.

Lemma preprocess_batch_needs_nonempty_witness :
  exists st, preprocess_batch_locals [[7; 8; 0]; [9; 0; 0]]%Z = Ok st.
Proof.
  apply (proj2 (proj2 (proj2 (proj2 preprocess_batch_needs_nonempty)))
           [[7; 8; 0]; [9; 0; 0]]%Z 3).
  - discriminate.
  - repeat constructor.
Defined.

(** ** process_line *)

Lemma has_space_app (s : pystr) (c : N) :
  has_space (s ++ [c]) = has_space s || is_space c.
Proof.
  induction s as [|a s IH]; simpl; [now rewrite orb_false_r|].
  now rewrite IH, orb_assoc.
Qed.

(** The tokens of [str.split] are non-empty and free of whitespace. *)
Lemma split_from_tokens (s : pystr) :
  forall word, has_space word = false ->
  Forall (fun w => w <> [] /\ has_space w = false) (split_from word s).
Proof.
  induction s as [|c s IH]; intros word Hw; simpl.
  - destruct word; constructor; [split; [discriminate|exact Hw]|constructor].
  - destruct (is_space c) eqn:Hc.
    + destruct word.
      * now apply IH.
      * constructor; [split; [discriminate|exact Hw]|now apply IH].
    + apply IH. now rewrite has_space_app, Hw, Hc.
Qed.

Lemma split_from_lstrip (s : pystr) :
  split_from [] (lstrip s) = split_from [] s.
Proof.
  induction s as [|c s IH]; simpl; [reflexivity|].
  destruct (is_space c) eqn:Hc; [exact IH|].
  simpl. now rewrite Hc.
Qed.

Lemma split_from_rstrip (s : pystr) :
  forall word, split_from word (rstrip s) = split_from word s.
Proof.
  induction s as [|c s IH]; intros word; [reflexivity|].
  simpl rstrip. destruct (rstrip s) as [|c' rest] eqn:Hr.
  - destruct (is_space c) eqn:Hc; simpl; rewrite Hc.
    + destruct word; rewrite <- IH; reflexivity.
    + rewrite <- IH. reflexivity.
  - simpl. destruct (is_space c); [destruct word|]; now rewrite <- IH.
Qed.

(** [strip()] before [split()] changes nothing. *)
Lemma str_split_strip (s : pystr) : str_split (str_strip s) = str_split s.
Proof.
  unfold str_split, str_strip. now rewrite split_from_rstrip, split_from_lstrip.
Qed.

(** What [split_from] has read and what it still reads are its tokens,
    each followed by whitespace, after leading whitespace; between two
    tokens there is at least one whitespace character. *)
Lemma split_from_weave (s : pystr) :
  forall word, has_space word = false ->
  exists lead gaps,
    length gaps = length (split_from word s) /\
    all_space lead = true /\
    Forall (fun g => all_space g = true) gaps /\
    Forall (fun g => g <> []) (removelast gaps) /\
    (word <> [] -> lead = []) /\
    word ++ s = lead ++ weave (split_from word s) gaps.
Proof.
  induction s as [|c s IH]; intros word Hw.
  - destruct word as [|a word].
    + exists [], []. simpl. repeat split; auto.
    + exists [], [[]]. simpl. rewrite !app_nil_r.
      repeat split; auto; repeat constructor.
  - simpl. destruct (is_space c) eqn:Hc.
    + destruct (IH [] eq_refl) as (lead & gaps & Hlen & Hlead & Hgaps & Hinner & _ & Heq).
      simpl in Heq. destruct word as [|a word].
      * exists (c :: lead), gaps.
        split; [exact Hlen|].
        split; [unfold all_space in *; simpl; now rewrite Hc|].
        split; [exact Hgaps|]. split; [exact Hinner|].
        split; [congruence|]. simpl. now f_equal.
      * exists [], ((c :: lead) :: gaps).
        split; [simpl; now rewrite Hlen|].
        split; [reflexivity|].
        split; [constructor; [unfold all_space in *; simpl; now rewrite Hc|exact Hgaps]|].
        split; [simpl; destruct gaps; constructor; [discriminate|exact Hinner]|].
        split; [reflexivity|].
        simpl. now rewrite <- Heq.
    + destruct (IH (word ++ [c])) as (lead & gaps & Hlen & Hlead & Hgaps & Hinner & Hnil & Heq).
      { now rewrite has_space_app, Hw, Hc. }
      rewrite Hnil in Heq by (destruct word; discriminate).
      simpl in Heq. exists [], gaps.
      split; [exact Hlen|]. split; [reflexivity|].
      split; [exact Hgaps|]. split; [exact Hinner|].
      split; [reflexivity|].
      simpl. now rewrite <- Heq, <- app_assoc.
Qed.

Lemma pad_indices_length vocabulary indices max_length :
  length (pad_indices vocabulary indices max_length) = max_length.
Proof.
  unfold pad_indices. rewrite length_firstn, length_app, repeat_length. lia.
Qed.

(** C4: for every line, a string of any Unicode code points,
    [process_line] returns exactly [max_length] indices, whatever the
    number of tokens: the line is split at whitespace (its tokens are
    non-empty and free of whitespace, and the line is these tokens in
    order, separated by non-empty runs of whitespace, with whitespace
    allowed before the first and after the last), the tokens are mapped
    to their vocabulary indices, in reverse order when [reverse] is set,
    the end-of-sequence index is appended, and the result is padded with
    the padding index or cut to its first [max_length] elements; the
    line "the cat sat" with the=1, cat=2, sat=3, eos=4, pad=0 and
    [max_length = 6] gives [1,2,3,4,0,0]. *)
Theorem process_line_fixed_width (line : pystr) (vocabulary : Vocabulary)
    (max_length : nat) (reverse : bool) :
  let words := str_split (str_strip line) in
  let indices :=
    map (word_index vocabulary) (if reverse then rev words else words)
    ++ [eos_index vocabulary] in
  Forall (fun w => w <> [] /\ has_space w = false) words /\
  (exists lead gaps,
     length gaps = length words /\
     all_space lead = true /\
     Forall (fun g => all_space g = true) gaps /\
     Forall (fun g => g <> []) (removelast gaps) /\
     line = lead ++ weave words gaps) /\
  length (process_line line vocabulary max_length reverse) = max_length /\
  process_line line vocabulary max_length reverse
    = firstn max_length indices
      ++ repeat (pad_index vocabulary) (max_length - length indices) /\
  firstn (Nat.min max_length (length indices))
    (process_line line vocabulary max_length reverse)
    = firstn max_length indices /\
  process_line (text "the cat sat") scenario_vocabulary 6 false
  = [1; 2; 3; 4; 0; 0]%Z.
Proof.
  intros words indices.
  assert (Hpl : process_line line vocabulary max_length reverse
                = firstn max_length indices
                  ++ repeat (pad_index vocabulary) (max_length - length indices)).
  { unfold process_line, pad_indices, numericalize_inputs, get_eos.
    fold words. fold indices.
    rewrite firstn_app.
    destruct (Nat.le_gt_cases max_length (length indices)) as [Hle|Hgt].
    - replace (max_length - length indices) with 0 by lia. simpl.
      reflexivity.
    - rewrite (firstn_all2 (n := max_length - length indices)) by (rewrite repeat_length; lia).
      reflexivity. }
  split; [apply split_from_tokens; reflexivity|].
  split.
  { destruct (split_from_weave line [] eq_refl)
      as (lead & gaps & Hlen & Hlead & Hgaps & Hinner & _ & Heq).
    exists lead, gaps. unfold words. rewrite str_split_strip.
    repeat split; assumption. }
  split; [apply pad_indices_length|].
  split; [exact Hpl|].
  split; [|reflexivity].
  rewrite Hpl, firstn_app, length_firstn, Nat.sub_diag, firstn_firstn.
  simpl. rewrite app_nil_r.
  destruct (Nat.le_gt_cases max_length (length indices)) as [Hle|Hgt].
  - f_equal. lia.
  - rewrite !firstn_all2 by lia. reflexivity.
Qed.

(** Lines beyond ASCII: two Cyrillic letters (U+0445 twice) are one
    token, unknown to the scenario's vocabulary, and an ideographic space
    (U+3000) separates tokens as a space does. *)
Example process_line_beyond_ascii :
  process_line [1093; 1093]%N scenario_vocabulary 4 false = [5; 4; 0; 0]%Z /\
  process_line (text "the" ++ [12288%N] ++ text "cat" ++ [160; 10]%N)
    scenario_vocabulary 4 false
  = [1; 2; 4; 0]%Z.
Proof. split; reflexivity. Qed.

(** ** The step functions *)

Section StepFacts.

Context {F : Type} (obj_truth : @pyval F -> result bool).

Lemma skipn_prefix {A : Type} (a b : list A) : skipn (length a) (a ++ b) = b.
Proof. induction a; simpl; [reflexivity|assumption]. Qed.

Ltac norm := rewrite <- ?app_assoc; simpl.

Ltac norm_hyps :=
  repeat match goal with
         | R : _ (_ ++ [_]) _ = _ |- _ => progress (rewrite <- ?app_assoc in R; simpl in R)
         end.

(** The branch in which a call has just raised. *)
Ltac raised :=
  split;
  [ unfold raised_by_last_call; eexists _, _; split; [reflexivity|eassumption]
  | norm; rewrite ?skipn_prefix; try (rewrite <- (app_nil_r (skipn _ _)), skipn_prefix);
    simpl; eexists; reflexivity ].

(** C5: one invocation of the training step sets the model to training
    mode, clears the gradients, runs the forward pass, computes the loss
    against [y], back-propagates, clips the gradient norm of the model's
    parameters to the configured threshold (5.0 by default), applies one
    optimizer update and returns [loss.item()], in this order; when a
    call raises, the step raises the same exception at once: nothing is
    caught and no later operation runs. *)
Theorem update_runs_one_training_step
    (env : oracle) (tr0 : list call) (model optimizer loss_fn : pyval)
    (grad_clipping : Q) (batch : gmap string pyval)
    (x y : pyval) (given : bool) :
  batch !! "x" = Some x ->
  batch !! "y" = Some y ->
  py_truth obj_truth (default VNone (batch !! "lengths")) = Ok given ->
  num_truth grad_clipping = true ->
  let forward :=
    if given then model_call_lengths model x (default VNone (batch !! "lengths"))
    else model_call model x in
  default_grad_clipping == 5 # 1 /\
  num_truth default_grad_clipping = true /\
  match _update obj_truth model optimizer loss_fn grad_clipping batch env tr0 with
  | (Ok v, tr) =>
      exists y_pred loss params,
        tr = tr0 ++ [model_train model; optimizer_zero_grad optimizer; forward;
                     loss_fn_call loss_fn y_pred y; loss_backward loss;
                     model_parameters model; clip_grad_norm_ params grad_clipping;
                     optimizer_step optimizer; loss_item loss] /\
        map call_name (skipn (length tr0) tr) = update_order given /\
        env (tr0 ++ [model_train model; optimizer_zero_grad optimizer]) forward
          = Ok y_pred /\
        env (tr0 ++ [model_train model; optimizer_zero_grad optimizer; forward])
          (loss_fn_call loss_fn y_pred y) = Ok loss /\
        env (removelast tr) (loss_item loss) = Ok v
  | (Raise e, tr) =>
      raised_by_last_call env tr e /\
      exists later, map call_name (skipn (length tr0) tr) ++ later = update_order given
  end.
Proof.
  intros Hx Hy Hl Hg forward.
  split; [reflexivity|]. split; [reflexivity|].
  unfold _update, forward_step, bind, do_call, lift, ret, dict_getitem.
  rewrite Hx, Hy.
  replace (match batch !! "lengths" with Some l => l | None => VNone end)
    with (default VNone (batch !! "lengths")) by (destruct (batch !! "lengths"); reflexivity).
  rewrite Hl, Hg. simpl.
  subst forward.
  destruct given;
    (destruct (env tr0 (model_train model)) eqn:R1; simpl; [|raised]);
    (destruct (env _ (optimizer_zero_grad optimizer)) eqn:R2; simpl; [|raised]);
    (match goal with
     | |- context [env ?t ?c] => destruct (env t c) as [y_pred|] eqn:R3
     end; simpl; [|raised]);
    (destruct (env _ (loss_fn_call loss_fn y_pred y)) as [loss|] eqn:R4; simpl; [|raised]);
    (destruct (env _ (loss_backward loss)) eqn:R5; simpl; [|raised]);
    (destruct (env _ (model_parameters model)) as [params|] eqn:R6; simpl; [|raised]);
    (destruct (env _ (clip_grad_norm_ params grad_clipping)) eqn:R7; simpl; [|raised]);
    (destruct (env _ (optimizer_step optimizer)) eqn:R8; simpl; [|raised]);
    (destruct (env _ (loss_item loss)) as [v|] eqn:R9; simpl; [|raised]);
    exists y_pred, loss, params;
    (split; [norm; reflexivity|]);
    (split; [norm; now rewrite skipn_prefix|]);
    rewrite removelast_last;
    norm_hyps; norm; auto.
Qed.

Ltac env_cases env :=
  match goal with
  | |- context [env ?t ?c] => destruct (env t c) eqn:?; simpl
  end.

(** A finished run: its trace is read off and inspected. *)
Ltac trace_done :=
  simpl; eexists;
  split; [norm; reflexivity|];
  repeat split; simpl; intros; try discriminate; try (reflexivity || lia).

(** The forward step on a batch without a ["lengths"] key is the call
    [model(x)]. *)
Lemma forward_step_without_lengths (env : oracle) (tr : list call)
    (model : pyval) (batch : gmap string pyval) (x y : pyval) :
  batch !! "x" = Some x -> batch !! "y" = Some y -> batch !! "lengths" = None ->
  forward_step obj_truth model batch env tr
  = (match env tr (model_call model x) with
     | Ok y_pred => Ok (y_pred, y)
     | Raise e => Raise e
     end, tr ++ [model_call model x]).
Proof.
  intros Hx Hy Hl.
  unfold forward_step, bind, do_call, lift, ret, dict_getitem.
  rewrite Hx, Hy, Hl. simpl.
  destruct (env tr (model_call model x)); reflexivity.
Qed.

(** C9: the dict that [preprocess_batch] returns has exactly the keys
    ["x"] and ["y"] and no ["lengths"]; on such a batch the training
    step and the evaluation step take the branch without lengths and
    invoke the model as [model(x)]: once the calls before it have
    returned, [model(x)] is the next call, it is the only invocation of
    the model in the step, every completed step has made it, and no call
    [model(x, lengths)] occurs in any trace of the two steps. *)
Theorem pipeline_batches_call_model_without_lengths
    (samples : list (list Z)) (batch : gmap string pyval) :
  preprocess_batch samples = Ok batch ->
  exists x y,
    dom batch = ({["x"; "y"]} : gset string) /\
    batch !! "x" = Some x /\ batch !! "y" = Some y /\
    batch !! "lengths" = None /\
    forall (env : oracle) (tr0 : list call) (model : pyval),
      (forward_step obj_truth model batch env tr0
       = (match env tr0 (model_call model x) with
          | Ok y_pred => Ok (y_pred, y)
          | Raise e => Raise e
          end, tr0 ++ [model_call model x])) /\
      (forall optimizer loss_fn grad_clipping,
         exists later,
           snd (_update obj_truth model optimizer loss_fn grad_clipping batch env tr0)
           = tr0 ++ later /\
           existsb is_call_with_lengths later = false /\
           (2 < length later -> nth_error later 2 = Some (model_call model x)) /\
           (is_ok (env tr0 (model_train model)) = true ->
            is_ok (env (tr0 ++ [model_train model])
                     (optimizer_zero_grad optimizer)) = true ->
            firstn 3 later
            = [model_train model; optimizer_zero_grad optimizer; model_call model x] /\
            List.filter is_forward_call later = [model_call model x]) /\
           (forall v,
              fst (_update obj_truth model optimizer loss_fn grad_clipping batch env tr0)
              = Ok v ->
              firstn 3 later
              = [model_train model; optimizer_zero_grad optimizer; model_call model x] /\
              List.filter is_forward_call later = [model_call model x])) /\
      (exists later,
         snd (_inference obj_truth model batch env tr0) = tr0 ++ later /\
         existsb is_call_with_lengths later = false /\
         (2 < length later -> nth_error later 2 = Some (model_call model x)) /\
         (is_ok (env tr0 (model_eval model)) = true ->
          is_ok (env (tr0 ++ [model_eval model]) no_grad_enter) = true ->
          later = [model_eval model; no_grad_enter; model_call model x; no_grad_exit]) /\
         (forall y_pred y',
            fst (_inference obj_truth model batch env tr0) = Ok (y_pred, y') ->
            later = [model_eval model; no_grad_enter; model_call model x; no_grad_exit] /\
            y' = y /\
            env (tr0 ++ [model_eval model; no_grad_enter]) (model_call model x)
            = Ok y_pred)).
Proof.
  intros Hd. destruct (preprocess_batch_dict _ _ Hd) as (st & _ & ->).
  exists (VLong (l_x st)), (VLong (l_y st)).
  split; [rewrite !dom_insert_L, dom_empty_L; set_solver|].
  split; [reflexivity|]. split; [reflexivity|]. split; [reflexivity|].
  intros env tr0 model. split; [|split].
  - now apply forward_step_without_lengths.
  - intros optimizer loss_fn grad_clipping.
    unfold _update, bind, do_call, ret.
    destruct (env tr0 (model_train model)); simpl; [|trace_done].
    destruct (env _ (optimizer_zero_grad optimizer)); simpl; [|trace_done].
    rewrite (forward_step_without_lengths _ _ _ _ (VLong (l_x st)) (VLong (l_y st)))
      by reflexivity.
    destruct (num_truth grad_clipping); repeat env_cases env; trace_done.
  - unfold _inference, with_context, bind, do_call.
    destruct (env tr0 (model_eval model)); simpl; [|trace_done].
    destruct (env _ no_grad_enter); simpl; [|trace_done].
    rewrite (forward_step_without_lengths _ _ _ _ (VLong (l_x st)) (VLong (l_y st)))
      by reflexivity.
    repeat env_cases env; trace_done;
      norm_hyps; congruence.
Qed.
End StepFacts.

Lemma update_runs_one_training_step_witness :
  let x : @pyval Z := VLong (mk_ndarray 2 1 [[3]; [4]]%Z) in
  let y : @pyval Z := VLong (mk_ndarray 1 2 [[4; 0]]%Z) in
  let batch : gmap string pyval := <["y" := y]> (<["x" := x]> ∅) in
  let env : oracle := fun tr _ => Ok (VObj (length tr)) in
  _update (fun _ => Ok true) (VObj 100) (VObj 101) (VObj 102)
    default_grad_clipping batch env []
  = (Ok (VObj 8),
     [model_train (VObj 100); optimizer_zero_grad (VObj 101);
      model_call (VObj 100) x; loss_fn_call (VObj 102) (VObj 2) y;
      loss_backward (VObj 3); model_parameters (VObj 100);
      clip_grad_norm_ (VObj 5) (5 # 1); optimizer_step (VObj 101);
      loss_item (VObj 3)]).
Proof.
  intros x y batch env.
  pose proof (update_runs_one_training_step (fun _ => Ok true) env []
                (VObj 100) (VObj 101) (VObj 102) default_grad_clipping batch
                x y false eq_refl eq_refl eq_refl eq_refl) as (_ & _ & H).
  destruct (_update _ _ _ _ _ _ _ _) as [[v|e] tr] eqn:Hrun.
  - destruct H as (y_pred & loss & params & Htr & _ & H3 & H4 & H9).
    injection H3 as <-. injection H4 as <-.
    subst tr. simpl in H9.
    vm_compute in Hrun. exact (eq_sym Hrun).
  - vm_compute in Hrun. discriminate Hrun.
Defined.

(** ** train_file *)

Section TrainFileFacts.

Context {F : Type} (obj_truth : @pyval F -> result bool).

Lemma extends_ret {A : Type} (a : A) : extends_trace (F:=F) (ret a).
Proof. intros env tr. exists []. simpl. now rewrite app_nil_r. Qed.

Lemma extends_lift {A : Type} (r : result A) : extends_trace (F:=F) (lift r).
Proof. intros env tr. exists []. simpl. now rewrite app_nil_r. Qed.

Lemma extends_do_call (c : @call F) : extends_trace (do_call c).
Proof. intros env tr. now exists [c]. Qed.

Lemma extends_bind {A B : Type} (m : @M F A) (k : A -> M B) :
  extends_trace m -> (forall a, extends_trace (k a)) -> extends_trace (bind m k).
Proof.
  intros Hm Hk env tr. unfold bind.
  destruct (Hm env tr) as [new1 H1].
  destruct (m env tr) as [[a|e] tr1]; simpl in *; subst tr1.
  - destruct (Hk a env (tr ++ new1)) as [new2 H2].
    exists (new1 ++ new2). now rewrite H2, app_assoc.
  - now exists new1.
Qed.

Lemma extends_if {A : Type} (b : bool) (m1 m2 : @M F A) :
  extends_trace m1 -> extends_trace m2 -> extends_trace (if b then m1 else m2).
Proof. now destruct b. Qed.

Create HintDb trace.
Hint Resolve extends_ret extends_lift extends_do_call extends_bind extends_if : trace.

Lemma extends_move_to_device (model : @pyval F) device :
  extends_trace (move_to_device model device).
Proof. destruct device; simpl; auto with trace. Qed.

Lemma extends_attach_metrics (engine : @pyval F) metrics :
  extends_trace (attach_metrics engine metrics).
Proof.
  induction metrics as [|[name metric] rest IH]; simpl; auto with trace.
Qed.

Hint Resolve extends_move_to_device extends_attach_metrics : trace.

Lemma extends_train_file_body model vocabulary reverse file_name epochs batch_size
    checkpoint_dir checkpoint_every max_length validate_every :
  extends_trace
    (train_file_body obj_truth model vocabulary reverse file_name epochs batch_size
       checkpoint_dir checkpoint_every max_length validate_every).
Proof.
  unfold train_file_body, create_lm_trainer, create_lm_evaluator.
  repeat (apply extends_bind; [auto with trace|intros]).
  - destruct checkpoint_dir; auto 7 with trace.
  - auto with trace.
Qed.

(** C7: when [file_name] does not exist, [train_file] raises on its
    first statement: the existence test is the only call made, so no
    dataset, loader, optimizer or trainer is built and no training step
    runs; when the file exists the assertion passes and the run goes on
    with the construction of the dataset. *)
Theorem train_file_checks_the_file_first
    (env : oracle) (tr0 : list call) (model : pyval) (vocabulary : Vocabulary)
    (reverse : bool) (file_name intermediate_dir : string) (epochs batch_size : Z)
    (checkpoint_dir : option string) (checkpoint_every : Z) (max_length : nat)
    (report_every validate_every : Z) :
  let run :=
    train_file obj_truth model vocabulary reverse file_name intermediate_dir
      epochs batch_size checkpoint_dir checkpoint_every max_length
      report_every validate_every env tr0 in
  (env tr0 (os_path_exists file_name) = Ok (VBool false) ->
   run = (Raise AssertionError, tr0 ++ [os_path_exists file_name])) /\
  (env tr0 (os_path_exists file_name) = Ok (VBool true) ->
   run = train_file_body obj_truth model vocabulary reverse file_name epochs
           batch_size checkpoint_dir checkpoint_every max_length validate_every
           env (tr0 ++ [os_path_exists file_name]) /\
   exists later,
     snd run = tr0 ++ os_path_exists file_name
                   :: StreamDataset [file_name]
                        (closed_process_line vocabulary max_length reverse)
                   :: later).
Proof.
  intros run. subst run. unfold train_file, bind, do_call, lift.
  split; intros ->; simpl; [reflexivity|]. split; [reflexivity|].
  unfold train_file_body at 1.
  match goal with
  | |- context [bind (do_call ?c) ?k] =>
      assert (Hk : forall a, extends_trace (k a))
  end.
  { intros dataset.
    unfold train_file_body, create_lm_trainer, create_lm_evaluator.
    repeat (apply extends_bind; [auto with trace|intros]).
    - destruct checkpoint_dir; auto 7 with trace.
    - auto with trace. }
  unfold bind at 1, do_call at 1.
  destruct (env _ (StreamDataset _ _)) as [dataset|e]; simpl.
  - destruct (Hk dataset env
                ((tr0 ++ [os_path_exists file_name])
                 ++ [StreamDataset [file_name]
                       (closed_process_line vocabulary max_length reverse)]))
      as [later Hl].
    exists later. rewrite Hl, <- !app_assoc. reflexivity.
  - exists []. now rewrite <- app_assoc.
Qed.

(** C8: [train_file] never consults [report_every]: two calls that
    differ in nothing else are the same computation; reporting is gated
    by [validate_every] alone: the handler returns at once, with neither
    evaluation nor report, unless the iteration counter modulo
    [validate_every] is 0, and then it evaluates and prints the report. *)
Theorem report_every_is_never_consulted
    (model : pyval) (vocabulary : Vocabulary)
    (reverse : bool) (file_name intermediate_dir : string) (epochs batch_size : Z)
    (checkpoint_dir : option string) (checkpoint_every : Z) (max_length : nat)
    (report_every report_every' validate_every : Z) :
  train_file obj_truth model vocabulary reverse file_name intermediate_dir
    epochs batch_size checkpoint_dir checkpoint_every max_length
    report_every validate_every
  = train_file obj_truth model vocabulary reverse file_name intermediate_dir
      epochs batch_size checkpoint_dir checkpoint_every max_length
      report_every' validate_every /\
  forall (env : @oracle F) (tr0 : list (@call F))
         (evaluator loader start_time trainer : @pyval F) (i : Z),
    env tr0 (state_iteration trainer) = Ok (VInt i) ->
    validate_every <> 0%Z ->
    ((i mod validate_every)%Z <> 0%Z ->
     validate validate_every evaluator loader start_time trainer env tr0
     = (Ok tt, tr0 ++ [state_iteration trainer])) /\
    ((i mod validate_every)%Z = 0%Z ->
     match validate validate_every evaluator loader start_time trainer env tr0 with
     | (Ok _, tr) =>
         exists metrics epoch iteration now loss accuracy,
           tr = tr0 ++ [state_iteration trainer; engine_run evaluator loader 1;
                        state_metrics evaluator; state_epoch trainer;
                        state_iteration trainer; datetime_now;
                        metrics_getitem metrics "loss";
                        metrics_getitem metrics "accuracy";
                        print_report epoch iteration now start_time loss accuracy]
     | (Raise e, tr) =>
         raised_by_last_call env tr e /\
         exists later,
           tr = tr0 ++ state_iteration trainer :: engine_run evaluator loader 1 :: later
     end).
Proof.
  split; [reflexivity|].
  intros env tr0 evaluator loader start_time trainer i Hi Hne.
  unfold validate, bind, do_call, lift, ret, py_mod. rewrite Hi. simpl.
  destruct (Z.eqb_spec validate_every 0) as [|_]; [contradiction|]. simpl.
  split; intros Hmod.
  - destruct (Z.eqb_spec (i mod validate_every) 0); [contradiction|reflexivity].
  - rewrite Hmod. simpl.
    repeat match goal with
           | |- context [env ?t ?c] => destruct (env t c) eqn:?; simpl
           end.
    all: try (split;
              [unfold raised_by_last_call; eexists _, _; split; [reflexivity|eassumption]
              |eexists; rewrite <- ?app_assoc; reflexivity]).
    do 6 eexists. rewrite <- ?app_assoc. reflexivity.
Qed.
End TrainFileFacts.

(** ** predict *)

Section PredictFacts.

Context {F : Type} (fexp : F -> F).

(** C6, as the code has it: [predict] sets the model to evaluation mode
    and runs one forward pass on the sequence as a single-sample batch,
    a column with one row per time step; when the sequence is not empty
    and the model answers with a tensor shaped (batch, vocab, time),
    that is [1, V, T], the result has one entry per vocabulary index:
    the exponential of the final time step's entry for that index. *)
Theorem predict_final_step_distribution
    (env : oracle) (tr0 : list call) (model : pyval) (indices : list Z)
    (out : @tensor F) (V : nat) :
  let x := VLong (unsqueeze_indices indices) in
  indices <> [] ->
  is_ok (env tr0 (model_eval model)) = true ->
  is_ok (env (tr0 ++ [model_eval model]) cuda_is_available) = true ->
  env (tr0 ++ [model_eval model; cuda_is_available]) (model_forward model x)
    = Ok (VFloat out) ->
  t_shape out = [1; V; length indices] ->
  shape0 (unsqueeze_indices indices) = length indices /\
  shape1 (unsqueeze_indices indices) = 1 /\
  length (rows (unsqueeze_indices indices)) = length indices /\
  exists res,
    predict fexp model indices env tr0
    = (Ok res, tr0 ++ [model_eval model; cuda_is_available; model_forward model x]) /\
    t_shape res = [V] /\
    forall v, t_at res [v] = fexp (t_at out [0; v; length indices - 1]).
Proof.
  intros x Hne H1 H2 H3 Hshape.
  split; [reflexivity|]. split; [reflexivity|].
  split; [simpl; apply length_map|].
  unfold predict, bind, do_call, lift, ret.
  destruct (env tr0 (model_eval model)); [|discriminate]. simpl.
  destruct (env _ cuda_is_available); [|discriminate]. simpl.
  rewrite <- app_assoc. simpl. fold x. rewrite H3. simpl.
  unfold t_transpose. rewrite Hshape. simpl.
  unfold t_squeeze. simpl. unfold t_last. simpl.
  destruct (length indices) as [|T] eqn:HT.
  { destruct indices; [congruence|discriminate]. }
  simpl. eexists. split; [rewrite <- !app_assoc; reflexivity|].
  split; [reflexivity|]. intros v. simpl.
  now rewrite Nat.sub_0_r.
Qed.
End PredictFacts.

Lemma predict_final_step_distribution_witness :
  let out : @tensor Z :=
    mk_tensor [1; 3; 2]
      (fun idx => match idx with
                  | [b; v; t] => Z.of_nat (100 * b + 10 * v + t)
                  | _ => (-1)%Z
                  end) in
  let env : oracle :=
    fun _ c => match c with model_forward _ _ => Ok (VFloat out) | _ => Ok VNone end in
  exists res tr,
    predict Z.succ (VObj 0) [5; 6]%Z env [] = (Ok res, tr) /\
    t_shape res = [3] /\
    map (fun v => t_at res [v]) [0; 1; 2] = [2; 12; 22]%Z.
Proof.
  intros out env.
  destruct (predict_final_step_distribution Z.succ env [] (VObj 0) [5; 6]%Z out 3)
    as (_ & _ & _ & res & Hrun & Hshape & Hat); try reflexivity; [discriminate|].
  exists res. eexists. split; [exact Hrun|]. split; [exact Hshape|].
  simpl. now rewrite !Hat.
Defined.

(** With a model that answers in the layout (time, batch, vocab) the
    result is not a distribution over the vocabulary: for two time steps
    and three vocabulary indices it has the shape [2, 1] and holds, for
    each time step, the entry of the last vocabulary index. *)
Lemma predict_time_major_counterexample :
  let out : @tensor Z :=
    mk_tensor [2; 1; 3]
      (fun idx => match idx with
                  | [t; b; v] => Z.of_nat (100 * t + 10 * b + v)
                  | _ => (-1)%Z
                  end) in
  let env : oracle :=
    fun _ c => match c with model_forward _ _ => Ok (VFloat out) | _ => Ok VNone end in
  exists res tr,
    predict (fun z => z) (VObj 0) [5; 6]%Z env [] = (Ok res, tr) /\
    t_shape out = [length [5; 6]%Z; 1; 3] /\
    t_shape res = [2; 1] /\
    t_shape res <> [3] /\
    t_at res [0; 0] = t_at out [0; 0; 2] /\
    t_at res [1; 0] = t_at out [1; 0; 2] /\
    (let empty : @tensor Z := mk_tensor [1; 3; 0] (fun _ => 0%Z) in
     fst (predict (fun z => z) (VObj 0) []
            (fun _ c => match c with
                        | model_forward _ _ => Ok (VFloat empty)
                        | _ => Ok VNone
                        end) [])
     = Raise IndexError).
Proof.
  intros out env. do 2 eexists.
  split; [unfold predict, bind, do_call, lift, ret; simpl; reflexivity|].
  repeat split. discriminate.
Qed.

(** ** Runs on concrete collaborators *)

Lemma pipeline_batches_call_model_without_lengths_witness :
  let env : @oracle Z := fun tr _ => Ok (VObj (length tr)) in
  let x : @pyval Z := VLong (mk_ndarray 2 2 [[1; 3]; [2; 0]]%Z) in
  exists batch : gmap string (@pyval Z),
    preprocess_batch [[1; 2; 0]; [3; 0; 0]]%Z = Ok batch /\
    dom batch = ({["x"; "y"]} : gset string) /\
    batch !! "lengths" = None /\
    batch !! "x" = Some x /\
    firstn 3 (snd (_update (fun _ => Ok true) (VObj 100) (VObj 101) (VObj 102)
                     default_grad_clipping batch env []))
    = [model_train (VObj 100); optimizer_zero_grad (VObj 101);
       model_call (VObj 100) x] /\
    snd (_inference (fun _ => Ok true) (VObj 100) batch env [])
    = [model_eval (VObj 100); no_grad_enter; model_call (VObj 100) x;
       no_grad_exit].
Proof.
  intros env x. eexists. split; [reflexivity|].
  destruct (pipeline_batches_call_model_without_lengths (F:=Z) (fun _ => Ok true)
              [[1; 2; 0]; [3; 0; 0]]%Z _ eq_refl)
    as (x' & y' & Hdom & Hx & _ & Hl & Hsteps).
  assert (Hxx : x' = x) by (vm_compute in Hx; now injection Hx as <-).
  subst x'.
  destruct (Hsteps env [] (VObj 100)) as (_ & Hupdate & Hinference).
  destruct (Hupdate (VObj 101) (VObj 102) default_grad_clipping)
    as (later & Htrace & _ & _ & Hfirst & _).
  destruct Hinference as (later' & Htrace' & _ & _ & Hfour & _).
  split; [exact Hdom|]. split; [exact Hl|]. split; [exact Hx|].
  split.
  - rewrite Htrace. exact (proj1 (Hfirst eq_refl eq_refl)).
  - rewrite Htrace'. exact (Hfour eq_refl eq_refl).
Defined.

Lemma train_file_checks_the_file_first_witness :
  let absent : @oracle Z :=
    fun tr c => match c with
                | os_path_exists _ => Ok (VBool false)
                | _ => Ok (VObj (length tr))
                end in
  let present : @oracle Z :=
    fun tr c => match c with
                | os_path_exists _ => Ok (VBool true)
                | _ => Ok (VObj (length tr))
                end in
  train_file (fun _ => Ok true) (VObj 0) scenario_vocabulary false
    "corpus.txt" "./chunks" 20 64 None 1 50 50 1 absent []
  = (Raise AssertionError, [os_path_exists "corpus.txt"]) /\
  exists later,
    snd (train_file (fun _ => Ok true) (VObj 0) scenario_vocabulary false
           "corpus.txt" "./chunks" 20 64 None 1 50 50 1 present [])
    = os_path_exists "corpus.txt"
      :: StreamDataset ["corpus.txt"] (closed_process_line scenario_vocabulary 50 false)
      :: later.
Proof.
  intros absent present. split.
  - pose proof (train_file_checks_the_file_first (fun _ => Ok true) absent []
                  (VObj 0) scenario_vocabulary false "corpus.txt" "./chunks"
                  20 64 None 1 50 50 1) as H.
    cbv zeta in H. destruct H as [H _]. exact (H eq_refl).
  - pose proof (train_file_checks_the_file_first (fun _ => Ok true) present []
                  (VObj 0) scenario_vocabulary false "corpus.txt" "./chunks"
                  20 64 None 1 50 50 1) as H.
    cbv zeta in H. destruct H as [_ H]. exact (proj2 (H eq_refl)).
Defined.

Lemma report_every_is_never_consulted_witness :
  let env : @oracle Z :=
    fun tr c => match c with
                | state_iteration _ => Ok (VInt 4)
                | _ => Ok (VObj (length tr))
                end in
  validate 3 (VObj 1) (VObj 2) (VObj 3) (VObj 0) env []
  = (Ok tt, [state_iteration (VObj 0)]) /\
  snd (validate 2 (VObj 1) (VObj 2) (VObj 3) (VObj 0) env [])
  = [state_iteration (VObj 0); engine_run (VObj 1) (VObj 2) 1;
     state_metrics (VObj 1); state_epoch (VObj 0); state_iteration (VObj 0);
     datetime_now; metrics_getitem (VObj 2) "loss";
     metrics_getitem (VObj 2) "accuracy";
     print_report (VObj 3) (VInt 4) (VObj 5) (VObj 3) (VObj 6) (VObj 7)].
Proof.
  intros env. split.
  - destruct (report_every_is_never_consulted (F:=Z) (fun _ => Ok true) (VObj 0)
                scenario_vocabulary false "corpus.txt" "./chunks" 20 64 None 1 50
                50 7 3) as [_ H].
    destruct (H env [] (VObj 1) (VObj 2) (VObj 3) (VObj 0) 4%Z eq_refl) as [H1 _];
      [discriminate|].
    apply H1. discriminate.
  - destruct (report_every_is_never_consulted (F:=Z) (fun _ => Ok true) (VObj 0)
                scenario_vocabulary false "corpus.txt" "./chunks" 20 64 None 1 50
                50 7 2) as [_ H].
    destruct (H env [] (VObj 1) (VObj 2) (VObj 3) (VObj 0) 4%Z eq_refl) as [_ H2];
      [discriminate|].
    specialize (H2 eq_refl).
    destruct (validate _ _ _ _ _ _ _) as [[u|e] tr] eqn:Hrun.
    + vm_compute in Hrun. injection Hrun as _ <-. reflexivity.
    + vm_compute in Hrun. discriminate Hrun.
Defined.

(** * Further properties *)

(** ** preprocess_batch: errors, order and layout *)

Lemma default_collate_ragged (b : list (list Z)) (r1 r2 : list Z) :
  In r1 b -> In r2 b -> length r1 <> length r2 ->
  default_collate b = Raise RuntimeError.
Proof.
  intros H1 H2 Hne. unfold default_collate.
  destruct b as [|elem rest]; [contradiction|].
  destruct (forallb _ _) eqn:Hall; [|reflexivity].
  rewrite forallb_forall in Hall.
  apply Hall in H1. apply Hall in H2.
  apply Nat.eqb_eq in H1. apply Nat.eqb_eq in H2. congruence.
Qed.

(** X1: a sequence shorter than the working length makes stacking fail:
    the sample of maximal effective length is cut to the working length,
    the short one stays shorter, and [default_collate] raises. *)
Theorem preprocess_batch_ragged_raises (batch : list (list Z)) (W : nat) (s : list Z) :
  py_max (map effective_length batch) = Ok W ->
  In s batch -> length s < W ->
  preprocess_batch_locals batch = Raise RuntimeError.
Proof.
  intros HW Hs Hlt.
  unfold preprocess_batch_locals, sort_and_truncate. rewrite HW. simpl.
  destruct (py_max_spec _ _ HW) as (Hin & _).
  apply in_map_iff in Hin. destruct Hin as (m & Hm & Hmin).
  set (pairs := sorted_reverse snd (combine batch (map effective_length batch))).
  assert (Hp : forall a, In a batch -> In (firstn W a) (map (fun p => firstn W (fst p)) pairs)).
  { intros a Ha. apply in_map_iff. exists (a, effective_length a). split; [reflexivity|].
    apply (Permutation_in _ (Permutation_sym (sorted_reverse_perm snd _))).
    rewrite combine_map_r. apply in_map_iff. now exists a. }
  rewrite (default_collate_ragged _ (firstn W s) (firstn W m)); [reflexivity| | |].
  - now apply Hp.
  - now apply Hp.
  - rewrite !length_firstn. pose proof (effective_length_le m). lia.
Qed.

Lemma preprocess_batch_ragged_raises_witness :
  preprocess_batch_locals [[1; 2; 3]; [4]]%Z = Raise RuntimeError.
Proof.
  apply (preprocess_batch_ragged_raises [[1; 2; 3]; [4]]%Z 3 [4]%Z).
  - reflexivity.
  - right. left. reflexivity.
  - simpl. lia.
Defined.

(** X2: assembly neither drops nor duplicates a sample: the rows of the
    stacked array are, up to order, the input sequences cut to the working
    length. *)
Theorem preprocess_batch_rows_permutation (batch : list (list Z)) (st : batch_locals) :
  preprocess_batch_locals batch = Ok st ->
  Permutation (rows (l_batch st)) (map (firstn (l_max_length st)) batch).
Proof.
  intros Hst.
  destruct (preprocess_batch_locals_inv _ _ Hst) as (Hs & _).
  destruct (sort_and_truncate_inv _ _ _ _ _ Hs) as (_ & Hp & Hr & _).
  rewrite Hr, Hp.
  rewrite (Permutation_map _ (sorted_reverse_perm snd _)).
  rewrite combine_map_r, map_map. simpl. reflexivity.
Qed.

Lemma preprocess_batch_rows_permutation_witness :
  exists st,
    preprocess_batch_locals [[1; 0; 0]; [2; 3; 0]]%Z = Ok st /\
    Permutation (rows (l_batch st)) [[1; 0]; [2; 3]]%Z.
Proof.
  eexists. split; [reflexivity|].
  apply (preprocess_batch_rows_permutation [[1; 0; 0]; [2; 3; 0]]%Z _ eq_refl).
Defined.

Lemma map_nth_seq {A : Type} (d : A) (l : list A) :
  map (fun i => nth i l d) (seq 0 (length l)) = l.
Proof.
  apply (nth_ext _ _ d d).
  - now rewrite length_map, length_seq.
  - intros n Hn. rewrite length_map, length_seq in Hn.
    rewrite (nth_indep _ d (nth 0 l d)) by (rewrite length_map, length_seq; lia).
    rewrite (map_nth (fun i => nth i l d)), seq_nth by lia. reflexivity.
Qed.

(** Transposing twice gives back a well-formed array. *)
Lemma transpose01_involutive (arr : ndarray) :
  shape0 arr = length (rows arr) ->
  Forall (fun row => length row = shape1 arr) (rows arr) ->
  transpose01 (transpose01 arr) = arr.
Proof.
  destruct arr as [n m rs]. simpl. intros -> Hall.
  unfold transpose01. simpl. f_equal.
  transitivity (map (fun i => nth i rs []) (seq 0 (length rs)));
    [|apply map_nth_seq].
  apply map_ext_in. intros i Hi. apply in_seq in Hi.
  rewrite map_map.
  assert (Hrow : length (nth i rs []) = m).
  { rewrite List.Forall_forall in Hall. apply Hall, nth_In. lia. }
  transitivity (map (fun t => nth t (nth i rs []) 0%Z) (seq 0 (length (nth i rs []))));
    [|apply map_nth_seq].
  rewrite Hrow. apply map_ext. intros t.
  rewrite (nth_indep _ 0%Z (nth t [] 0%Z)) by (rewrite length_map; lia).
  rewrite (map_nth (fun row => nth t row 0%Z)). reflexivity.
Qed.

(** X3: the returned input array holds exactly the stacked batch:
    transposing it back gives the sorted, truncated array, and it has one
    row per time step, each with one entry per sample. *)
Theorem preprocess_batch_x_round_trip (batch : list (list Z)) (st : batch_locals) :
  preprocess_batch_locals batch = Ok st ->
  transpose01 (l_x st) = l_batch st /\
  length (rows (l_x st)) = l_max_length st /\
  Forall (fun col => length col = length batch) (rows (l_x st)).
Proof.
  intros Hst.
  destruct (preprocess_batch_locals_inv _ _ Hst) as (_ & _ & _ & Hx).
  destruct (working_width _ _ Hst) as (Hw & Hn & Hlen & Hall).
  rewrite Hx. split; [|split].
  - apply transpose01_involutive; [lia|now rewrite Hw].
  - simpl. now rewrite length_map, length_seq.
  - simpl. apply List.Forall_forall. intros col Hc.
    apply in_map_iff in Hc. destruct Hc as (t & <- & _).
    now rewrite length_map.
Qed.

Lemma preprocess_batch_x_round_trip_witness :
  exists st,
    preprocess_batch_locals [[1; 0; 0]; [2; 3; 0]]%Z = Ok st /\
    rows (l_x st) = [[2; 1]; [3; 0]]%Z /\
    transpose01 (l_x st) = l_batch st.
Proof.
  eexists. split; [reflexivity|]. split; [reflexivity|].
  apply (preprocess_batch_x_round_trip [[1; 0; 0]; [2; 3; 0]]%Z _ eq_refl).
Defined.

Lemma py_max_permutation (l l' : list nat) :
  Permutation l l' -> py_max l = py_max l'.
Proof.
  intros Hp.
  destruct l as [|a r].
  { apply Permutation_nil in Hp. now subst. }
  destruct l' as [|a' r'].
  { symmetry in Hp. apply Permutation_nil in Hp. discriminate. }
  destruct (py_max_nonempty (a :: r)) as [m Hm]; [discriminate|].
  destruct (py_max_nonempty (a' :: r')) as [m' Hm']; [discriminate|].
  rewrite Hm, Hm'. f_equal.
  destruct (py_max_spec _ _ Hm) as (Hin & Hle).
  destruct (py_max_spec _ _ Hm') as (Hin' & Hle').
  rewrite List.Forall_forall in Hle, Hle'.
  apply (Permutation_in _ Hp) in Hin.
  apply (Permutation_in _ (Permutation_sym Hp)) in Hin'.
  apply Hle in Hin'. apply Hle' in Hin. lia.
Qed.

Lemma NoDup_map_injective {A B : Type} (f : A -> B) (l : list A) (x y : A) :
  List.NoDup (map f l) -> In x l -> In y l -> f x = f y -> x = y.
Proof.
  induction l as [|a l IH]; simpl; [contradiction|].
  intros Hnd Hx Hy Hf. inversion Hnd as [|? ? Hnotin Hnd']; subst.
  destruct Hx as [->|Hx], Hy as [->|Hy]; try reflexivity.
  - exfalso. apply Hnotin. rewrite Hf. now apply in_map.
  - exfalso. apply Hnotin. rewrite <- Hf. now apply in_map.
  - now apply IH.
Qed.

(** With pairwise distinct keys the descending order is unique. *)
Lemma descending_unique {A : Type} (key : A -> nat) (l1 : list A) :
  forall l2, descending key l1 -> descending key l2 -> Permutation l1 l2 ->
             List.NoDup (map key l1) -> l1 = l2.
Proof.
  unfold descending.
  induction l1 as [|a r1 IH]; intros l2 H1 H2 Hp Hnd.
  - apply Permutation_nil in Hp. now subst.
  - destruct l2 as [|b r2].
    { symmetry in Hp. apply Permutation_nil in Hp. discriminate. }
    inversion H1 as [|? ? Hs1 Ha]; subst.
    inversion H2 as [|? ? Hs2 Hb]; subst.
    rewrite List.Forall_forall in Ha, Hb.
    assert (Hab : a = b).
    { assert (Hain : In a (b :: r2)) by (apply (Permutation_in _ Hp); now left).
      assert (Hbin : In b (a :: r1))
        by (apply (Permutation_in _ (Permutation_sym Hp)); now left).
      destruct Hain as [->|Hain]; [reflexivity|].
      destruct Hbin as [->|Hbin]; [reflexivity|].
      pose proof (Hb _ Hain) as Hle1. pose proof (Ha _ Hbin) as Hle2.
      apply (NoDup_map_injective key (a :: r1)); [exact Hnd|now left|now right|lia]. }
    subst b. f_equal. apply IH; try assumption.
    + now apply Permutation_cons_inv in Hp.
    + now inversion Hnd.
Qed.

Lemma sorted_reverse_permutation {A : Type} (key : A -> nat) (l l' : list A) :
  Permutation l l' -> List.NoDup (map key l) ->
  sorted_reverse key l' = sorted_reverse key l.
Proof.
  intros Hp Hnd. symmetry. apply (descending_unique key).
  - apply sorted_reverse_descending.
  - apply sorted_reverse_descending.
  - rewrite !sorted_reverse_perm. exact Hp.
  - eapply Permutation.Permutation_NoDup; [|exact Hnd].
    apply Permutation_map. symmetry. apply sorted_reverse_perm.
Qed.

(** X4: when the effective lengths of a batch are pairwise distinct, the
    assembled batch does not depend on the order in which the samples
    arrive: a reordered input gives the same result record or the same
    exception. *)
Theorem preprocess_batch_order_independent (batch batch' : list (list Z)) :
  Permutation batch batch' ->
  List.NoDup (map effective_length batch) ->
  preprocess_batch_locals batch' = preprocess_batch_locals batch.
Proof.
  intros Hp Hnd.
  assert (Hs : sort_and_truncate batch' = sort_and_truncate batch).
  { unfold sort_and_truncate.
    rewrite (py_max_permutation _ _ (Permutation_map effective_length Hp)).
    destruct (py_max (map effective_length batch')) as [W|e]; simpl; [|reflexivity].
    assert (Hpairs : sorted_reverse snd (combine batch' (map effective_length batch'))
                     = sorted_reverse snd (combine batch (map effective_length batch))).
    { rewrite !combine_map_r. apply sorted_reverse_permutation.
      - now apply Permutation_map.
      - now rewrite map_map. }
    assert (Hlens : list_sort_reverse (map effective_length batch')
                    = list_sort_reverse (map effective_length batch)).
    { unfold list_sort_reverse. apply (sorted_reverse_permutation (fun n => n)).
      - now apply Permutation_map.
      - now rewrite map_id. }
    now rewrite Hpairs, Hlens. }
  unfold preprocess_batch_locals. now rewrite Hs.
Qed.

Lemma preprocess_batch_order_independent_witness :
  preprocess_batch_locals [[2; 3; 0]; [1; 0; 0]; [4; 5; 6]]%Z
  = preprocess_batch_locals [[1; 0; 0]; [2; 3; 0]; [4; 5; 6]]%Z.
Proof.
  apply preprocess_batch_order_independent.
  - apply perm_swap.
  - simpl. repeat constructor; simpl; intuition discriminate.
Defined.

(** X5: the sorted lengths start with the working length, and the first
    pair holds a sample whose effective length is the working length: the
    longest sample comes first. *)
Theorem preprocess_batch_longest_first (batch : list (list Z)) (st : batch_locals) :
  preprocess_batch_locals batch = Ok st ->
  exists sample pairs lengths,
    l_pairs st = (sample, l_max_length st) :: pairs /\
    l_lengths st = l_max_length st :: lengths /\
    In sample batch /\
    effective_length sample = l_max_length st.
Proof.
  intros Hst.
  destruct (preprocess_batch_locals_inv _ _ Hst) as (Hs & _).
  destruct (sort_and_truncate_inv _ _ _ _ _ Hs) as (Hmax & Hp & _ & Hl).
  destruct (py_max_spec _ _ Hmax) as (Hin & Hle).
  pose proof (sorted_reverse_descending snd
                (combine batch (map effective_length batch))) as Hdesc.
  pose proof (sorted_reverse_perm snd
                (combine batch (map effective_length batch))) as Hperm.
  rewrite <- Hp in Hdesc, Hperm. rewrite combine_map_r in Hperm.
  assert (Hmem : forall p, In p (l_pairs st) ->
                           In (fst p) batch /\ snd p = effective_length (fst p)).
  { intros p Hpin. apply (Permutation_in _ Hperm) in Hpin.
    apply in_map_iff in Hpin. destruct Hpin as (a & <- & Ha). now split. }
  apply in_map_iff in Hin. destruct Hin as (m & Hm & Hmin).
  assert (HmW : In (m, l_max_length st) (l_pairs st)).
  { apply (Permutation_in _ (Permutation_sym Hperm)).
    apply in_map_iff. exists m. now rewrite Hm. }
  assert (Hsort : l_lengths st = map snd (l_pairs st)).
  { rewrite Hl, Hp. rewrite sorted_reverse_map. f_equal.
    rewrite combine_map_r, map_map. reflexivity. }
  clear Hp Hs Hperm.
  destruct (l_pairs st) as [|[s0 n0] rest]; [contradiction|].
  destruct (Hmem (s0, n0)) as (Hs0 & Hn0); [now left|]. simpl in Hs0, Hn0.
  assert (Hn0W : n0 = l_max_length st).
  { rewrite List.Forall_forall in Hle.
    assert (n0 <= l_max_length st) by (apply Hle; rewrite Hn0; now apply in_map).
    apply StronglySorted_inv in Hdesc. destruct Hdesc as [_ Hhead].
    rewrite List.Forall_forall in Hhead.
    destruct HmW as [Heq|Hin'].
    - now inversion Heq.
    - apply Hhead in Hin'. simpl in Hin'. lia. }
  exists s0, rest, (map snd rest).
  split; [now rewrite Hn0W|].
  split; [rewrite Hsort; simpl; now rewrite Hn0W|].
  split; [exact Hs0|congruence].
Qed.

Lemma preprocess_batch_longest_first_witness :
  exists st,
    preprocess_batch_locals [[1; 0; 0]; [2; 3; 0]]%Z = Ok st /\
    l_lengths st = [2; 1] /\
    exists sample pairs lengths,
      l_pairs st = (sample, l_max_length st) :: pairs /\
      l_lengths st = l_max_length st :: lengths /\
      In sample [[1; 0; 0]; [2; 3; 0]]%Z /\
      effective_length sample = l_max_length st.
Proof.
  eexists. split; [reflexivity|]. split; [reflexivity|].
  apply (preprocess_batch_longest_first [[1; 0; 0]; [2; 3; 0]]%Z _ eq_refl).
Defined.

Lemma zeros_repeat (l : list Z) :
  forallb (fun e => (e =? 0)%Z) l = true -> l = repeat 0%Z (length l).
Proof.
  induction l as [|e l IH]; simpl; [reflexivity|].
  destruct (Z.eqb_spec e 0); simpl; [|discriminate].
  intros H. subst e. f_equal. now apply IH.
Qed.

Lemma firstn_repeat_restore {A : Type} (a : A) (n W : nat) :
  firstn W (repeat a n) ++ repeat a (n - W) = repeat a n.
Proof.
  revert W. induction n as [|n IH]; intros [|W]; simpl; try reflexivity.
  f_equal. apply IH.
Qed.

(** Cutting a sequence padded at its end at or beyond its effective
    length removes zeros only. *)
Lemma padded_firstn_restore (sample : list Z) :
  padded_at_end sample = true ->
  forall W, effective_length sample <= W ->
            firstn W sample ++ repeat 0%Z (length sample - W) = sample.
Proof.
  induction sample as [|e r IH]; intros Hp W HW.
  - now rewrite firstn_nil.
  - simpl in Hp. destruct (e =? 0)%Z eqn:He.
    + assert (Hz : forallb (fun x => (x =? 0)%Z) (e :: r) = true)
        by (simpl; now rewrite He).
      remember (e :: r) as l eqn:El. clear El.
      rewrite (zeros_repeat l Hz), repeat_length.
      apply firstn_repeat_restore.
    + unfold effective_length in HW. simpl in HW. rewrite He in HW. simpl in HW.
      destruct W as [|W]; [lia|]. simpl. f_equal.
      apply IH; [exact Hp|unfold effective_length; lia].
Qed.

(** X6: on sequences padded only at their end truncation loses no token:
    every sample is its truncated row followed by zeros. *)
Theorem preprocess_batch_truncates_padding_only
    (batch : list (list Z)) (st : batch_locals) :
  preprocess_batch_locals batch = Ok st ->
  Forall (fun sample => padded_at_end sample = true) batch ->
  Forall (fun p => firstn (l_max_length st) (fst p)
                   ++ repeat 0%Z (length (fst p) - l_max_length st) = fst p)
    (l_pairs st).
Proof.
  intros Hst Hpad.
  destruct (preprocess_batch_locals_inv _ _ Hst) as (Hs & _).
  destruct (sort_and_truncate_inv _ _ _ _ _ Hs) as (Hmax & Hp & _ & _).
  destruct (py_max_spec _ _ Hmax) as (_ & Hle).
  rewrite List.Forall_forall in Hle, Hpad.
  apply List.Forall_forall. intros p Hin. rewrite Hp in Hin.
  apply (Permutation_in _ (sorted_reverse_perm snd _)) in Hin.
  rewrite combine_map_r in Hin. apply in_map_iff in Hin.
  destruct Hin as (s & <- & Hsin). simpl.
  apply padded_firstn_restore; [now apply Hpad|].
  apply Hle. now apply in_map.
Qed.

Lemma preprocess_batch_truncates_padding_only_witness :
  exists st,
    preprocess_batch_locals [[1; 0; 0; 0]; [2; 3; 0; 0]]%Z = Ok st /\
    rows (l_batch st) = [[2; 3]; [1; 0]]%Z /\
    Forall (fun p => firstn (l_max_length st) (fst p)
                     ++ repeat 0%Z (length (fst p) - l_max_length st) = fst p)
      (l_pairs st).
Proof.
  eexists. split; [reflexivity|]. split; [reflexivity|].
  apply (preprocess_batch_truncates_padding_only
           [[1; 0; 0; 0]; [2; 3; 0; 0]]%Z _ eq_refl).
  repeat constructor.
Defined.

(** ** process_line: whitespace *)

Lemma split_from_word (w s : pystr) :
  has_space w = false ->
  forall acc, split_from acc (w ++ s) = split_from (acc ++ w) s.
Proof.
  induction w as [|c w IH]; intros Hw acc; simpl.
  - now rewrite app_nil_r.
  - simpl in Hw. apply orb_false_iff in Hw. destruct Hw as [Hc Hw].
    rewrite Hc, IH by exact Hw. now rewrite <- app_assoc.
Qed.

(** Splitting the tokens joined by single spaces gives the tokens back. *)
Lemma split_join_words (words : list pystr) :
  Forall (fun w => w <> [] /\ has_space w = false) words ->
  str_split (join_words words) = words.
Proof.
  unfold str_split.
  induction words as [|w rest IH]; intros Hall; [reflexivity|].
  inversion Hall as [|? ? [Hne Hw] Hrest]; subst.
  destruct rest as [|w' rest'].
  - simpl. rewrite <- (app_nil_r w) at 1.
    rewrite split_from_word by exact Hw. simpl.
    destruct w; [congruence|reflexivity].
  - change (join_words (w :: w' :: rest'))
      with (w ++ 32%N :: join_words (w' :: rest')).
    rewrite split_from_word by exact Hw.
    change (split_from ([] ++ w) (32%N :: join_words (w' :: rest')))
      with (match w with
            | [] => split_from [] (join_words (w' :: rest'))
            | _ => w :: split_from [] (join_words (w' :: rest'))
            end).
    destruct w; [congruence|]. f_equal. now apply IH.
Qed.

(** Whitespace between, before and after the tokens is not seen: a line
    written as tokens with gaps of whitespace splits into these tokens. *)
Lemma split_weave (words : list pystr) :
  Forall (fun w => w <> [] /\ has_space w = false) words ->
  forall gaps lead,
    length gaps = length words ->
    all_space lead = true ->
    Forall (fun g => all_space g = true) gaps ->
    Forall (fun g => g <> []) (removelast gaps) ->
    str_split (lead ++ weave words gaps) = words.
Proof.
  assert (Hlead : forall lead s, all_space lead = true ->
                    split_from [] (lead ++ s) = split_from [] s).
  { induction lead as [|c lead IH]; intros s Hl; [reflexivity|].
    unfold all_space in Hl. simpl in Hl. apply andb_true_iff in Hl.
    destruct Hl as [Hc Hl]. simpl. rewrite Hc. now apply IH. }
  unfold str_split.
  induction words as [|w rest IH]; intros Hall gaps lead Hlen Hl Hgaps Hinner.
  - destruct gaps; [|discriminate]. simpl. rewrite app_nil_r.
    rewrite <- (app_nil_r lead). now rewrite Hlead.
  - inversion Hall as [|? ? [Hne Hw] Hrest]; subst.
    destruct gaps as [|g gaps]; [discriminate|]. simpl in Hlen.
    inversion Hgaps as [|? ? Hg Hgaps']; subst.
    rewrite Hlead by exact Hl. simpl weave.
    rewrite split_from_word by exact Hw. simpl app.
    destruct rest as [|w' rest'].
    + destruct gaps; [|discriminate]. simpl. rewrite app_nil_r.
      destruct w as [|a w]; [congruence|].
      clear - Hg Hlead. induction g as [|c g IHg]; [reflexivity|].
      unfold all_space in Hg. simpl in Hg. apply andb_true_iff in Hg.
      destruct Hg as [Hc Hg]. simpl. rewrite Hc.
      destruct g as [|c' g']; [reflexivity|].
      f_equal.
      assert (H0 : split_from [] ((c' :: g') ++ []) = split_from [] [])
        by (apply Hlead; exact Hg).
      rewrite app_nil_r in H0. exact H0.
    + destruct gaps as [|g' gaps']; [discriminate|].
      simpl in Hinner. inversion Hinner as [|? ? Hgne Hinner']; subst.
      destruct g as [|c g]; [congruence|].
      unfold all_space in Hg. simpl in Hg. apply andb_true_iff in Hg.
      destruct Hg as [Hc Hg]. simpl. rewrite Hc.
      destruct w as [|a w]; [congruence|]. f_equal.
      change (split_from [] (g ++ weave (w' :: rest') (g' :: gaps')) = w' :: rest').
      rewrite <- (IH Hrest (g' :: gaps') g) at 2; try assumption.
      * reflexivity.
      * simpl in Hlen |- *. lia.
Qed.

(** X7: the encoder sees a line only through its tokens: stripping before
    splitting changes nothing, a line encodes like its tokens joined by
    single spaces, and any two lines made of the same tokens encode
    alike, whatever whitespace surrounds or separates the tokens. *)
Theorem process_line_ignores_spacing (line : pystr) (vocabulary : Vocabulary)
    (max_length : nat) (reverse : bool) :
  str_split (str_strip line) = str_split line /\
  str_split (join_words (str_split line)) = str_split line /\
  process_line (join_words (str_split line)) vocabulary max_length reverse
  = process_line line vocabulary max_length reverse /\
  forall lead gaps,
    length gaps = length (str_split line) ->
    all_space lead = true ->
    Forall (fun g => all_space g = true) gaps ->
    Forall (fun g => g <> []) (removelast gaps) ->
    process_line (lead ++ weave (str_split line) gaps) vocabulary max_length reverse
    = process_line line vocabulary max_length reverse.
Proof.
  pose proof str_split_strip as Hstrip.
  assert (Htok : Forall (fun w => w <> [] /\ has_space w = false) (str_split line))
    by (apply split_from_tokens; reflexivity).
  assert (Hjoin : str_split (join_words (str_split line)) = str_split line)
    by (apply split_join_words; exact Htok).
  split; [apply Hstrip|]. split; [exact Hjoin|].
  split; [unfold process_line; now rewrite !Hstrip, Hjoin|].
  intros lead gaps Hlen Hl Hgaps Hinner.
  unfold process_line. rewrite !Hstrip.
  now rewrite (split_weave _ Htok gaps lead Hlen Hl Hgaps Hinner).
Qed.

(** ** process_line and preprocess_batch together *)

Lemma process_line_length line vocabulary max_length reverse :
  length (process_line line vocabulary max_length reverse) = max_length.
Proof. apply pad_indices_length. Qed.

(** X8: the encoder's output is valid input for the assembler: a
    non-empty list of lines encoded with one [max_length] is always
    stacked, with one row per line and a width of at most [max_length]. *)
Theorem encoded_lines_always_stack (lines : list pystr) (vocabulary : Vocabulary)
    (max_length : nat) (reverse : bool) :
  lines <> [] ->
  exists st,
    preprocess_batch_locals
      (map (fun line => process_line line vocabulary max_length reverse) lines)
    = Ok st /\
    shape0 (l_batch st) = length lines /\
    shape1 (l_batch st) = l_max_length st /\
    l_max_length st <= max_length.
Proof.
  intros Hne.
  set (batch := map (fun line => process_line line vocabulary max_length reverse) lines).
  assert (Hall : Forall (fun sample => length sample = max_length) batch).
  { apply List.Forall_forall. intros s Hs. apply in_map_iff in Hs.
    destruct Hs as (l & <- & _). apply process_line_length. }
  destruct (preprocess_batch_locals_total batch max_length) as [st Hst];
    [destruct lines; [congruence|discriminate]|exact Hall|].
  exists st. split; [exact Hst|].
  destruct (working_width _ _ Hst) as (Hw & Hn & _ & _).
  split; [rewrite Hn; apply length_map|]. split; [exact Hw|].
  destruct (preprocess_batch_locals_inv _ _ Hst) as (Hs & _).
  destruct (sort_and_truncate_inv _ _ _ _ _ Hs) as (Hmax & _).
  destruct (py_max_spec _ _ Hmax) as (Hin & _).
  apply in_map_iff in Hin. destruct Hin as (s & <- & Hs').
  rewrite List.Forall_forall in Hall. rewrite <- (Hall _ Hs').
  apply effective_length_le.
Qed.

Lemma encoded_lines_always_stack_witness :
  exists st,
    preprocess_batch_locals
      (map (fun line => process_line line scenario_vocabulary 6 false)
         [text "the cat sat"; text "  the  "])
    = Ok st /\
    rows (l_batch st) = [[1; 2; 3; 4]; [1; 4; 0; 0]]%Z.
Proof.
  destruct (encoded_lines_always_stack [text "the cat sat"; text "  the  "]
              scenario_vocabulary 6 false) as (st & Hst & _); [discriminate|].
  exists st. split; [exact Hst|].
  vm_compute in Hst. injection Hst as <-. reflexivity.
Defined.

Lemma padded_app_zeros (real : list Z) (k : nat) :
  Forall (fun e => e <> 0%Z) real ->
  padded_at_end (real ++ repeat 0%Z k) = true /\
  effective_length (real ++ repeat 0%Z k) = length real.
Proof.
  intros Hreal. induction Hreal as [|e real He _ [IH1 IH2]]; simpl.
  - split.
    + destruct k; simpl; [reflexivity|].
      clear. induction k; simpl; [reflexivity|assumption].
    + unfold effective_length. clear. induction k; simpl; [reflexivity|assumption].
  - destruct (Z.eqb_spec e 0); [contradiction|].
    split; [exact IH1|].
    unfold effective_length in *. simpl.
    destruct (Z.eqb_spec e 0); [contradiction|]. simpl. now rewrite IH2.
Qed.

(** X9: when the padding index is 0 and neither a token index nor the
    end-of-sequence index is 0, every encoded line is padded at its end
    only, and its effective length is the number of its tokens plus one
    for the end-of-sequence marker, capped at [max_length]. *)
Theorem process_line_pads_at_end (line : pystr) (vocabulary : Vocabulary)
    (max_length : nat) (reverse : bool) :
  pad_index vocabulary = 0%Z ->
  eos_index vocabulary <> 0%Z ->
  (forall w, word_index vocabulary w <> 0%Z) ->
  padded_at_end (process_line line vocabulary max_length reverse) = true /\
  effective_length (process_line line vocabulary max_length reverse)
  = Nat.min max_length (S (length (str_split line))).
Proof.
  intros Hpad Heos Hword.
  pose proof (str_split_strip line) as Hstrip.
  set (words := str_split (str_strip line)).
  set (indices := map (word_index vocabulary) (if reverse then rev words else words)
                  ++ [eos_index vocabulary]).
  assert (Hpl : process_line line vocabulary max_length reverse
                = firstn max_length indices
                  ++ repeat 0%Z (max_length - length indices)).
  { unfold process_line, pad_indices, numericalize_inputs, get_eos.
    fold words. fold indices. rewrite Hpad, firstn_app.
    destruct (Nat.le_gt_cases max_length (length indices)) as [Hle|Hgt].
    - replace (max_length - length indices) with 0 by lia. reflexivity.
    - rewrite (firstn_all2 (n := max_length - length indices))
        by (rewrite repeat_length; lia).
      reflexivity. }
  assert (Hnz : Forall (fun e => e <> 0%Z) indices).
  { unfold indices. apply Forall_app. split.
    - apply List.Forall_forall. intros e He. apply in_map_iff in He.
      destruct He as (w & <- & _). apply Hword.
    - now constructor. }
  assert (Hlen : length indices = S (length (str_split line))).
  { unfold indices. rewrite length_app, length_map. simpl.
    rewrite <- Hstrip. fold words.
    destruct reverse; [rewrite length_rev|]; lia. }
  destruct (padded_app_zeros (firstn max_length indices)
              (max_length - length indices)) as [H1 H2].
  { now apply Forall_take. }
  rewrite Hpl. split; [exact H1|].
  now rewrite H2, length_firstn, Hlen.
Qed.

Lemma scenario_vocabulary_nonzero (w : pystr) :
  word_index scenario_vocabulary w <> 0%Z.
Proof.
  cbv [word_index scenario_vocabulary].
  destruct (str_eqb w (text "the")); [discriminate|].
  destruct (str_eqb w (text "cat")); [discriminate|].
  destruct (str_eqb w (text "sat")); discriminate.
Qed.

Lemma process_line_pads_at_end_witness :
  let line := text " the" ++ [12288; 1093; 1093; 160]%N ++ text "sat " in
  padded_at_end (process_line line scenario_vocabulary 6 false) = true /\
  effective_length (process_line line scenario_vocabulary 6 false) = 4 /\
  effective_length (process_line line scenario_vocabulary 2 false) = 2.
Proof.
  intros line. split; [|split].
  - apply (process_line_pads_at_end line scenario_vocabulary 6 false);
      [reflexivity|discriminate|apply scenario_vocabulary_nonzero].
  - refine (proj2 (process_line_pads_at_end line scenario_vocabulary 6 false
                     eq_refl _ scenario_vocabulary_nonzero)).
    discriminate.
  - refine (proj2 (process_line_pads_at_end line scenario_vocabulary 2 false
                     eq_refl _ scenario_vocabulary_nonzero)).
    discriminate.
Defined.

(** ** The step functions: further properties *)

Section MoreStepFacts.

Context {F : Type} (obj_truth : @pyval F -> result bool).

Ltac tidy := rewrite <- ?app_assoc; simpl.

Ltac tidy_hyps :=
  repeat match goal with
         | R : _ (_ ++ [_]) _ = _ |- _ => progress (rewrite <- ?app_assoc in R; simpl in R)
         end.

Ltac by_last_call :=
  unfold raised_by_last_call; eexists _, _; split; [reflexivity|eassumption].

(** X10: the evaluation step only switches the model to evaluation mode
    and runs the forward call inside [torch.no_grad()]: it returns the
    prediction with the batch's [y], it calls neither the optimizer nor a
    loss, and once the context is entered it is left again, also when the
    forward call raises. *)
Theorem inference_is_read_only
    (env : oracle) (tr0 : list call) (model : pyval)
    (batch : gmap string pyval) (x y : pyval) (given : bool) :
  batch !! "x" = Some x ->
  batch !! "y" = Some y ->
  py_truth obj_truth (default VNone (batch !! "lengths")) = Ok given ->
  let forward :=
    if given then model_call_lengths model x (default VNone (batch !! "lengths"))
    else model_call model x in
  let entered := tr0 ++ [model_eval model; no_grad_enter] in
  match _inference obj_truth model batch env tr0 with
  | (Ok (y_pred, y'), tr) =>
      y' = y /\
      tr = entered ++ [forward; no_grad_exit] /\
      env entered forward = Ok y_pred
  | (Raise e, tr) =>
      (tr = tr0 ++ [model_eval model] /\ env tr0 (model_eval model) = Raise e) \/
      (tr = entered /\ env (tr0 ++ [model_eval model]) no_grad_enter = Raise e) \/
      (tr = entered ++ [forward; no_grad_exit] /\
       (env (entered ++ [forward]) no_grad_exit = Raise e \/
        env entered forward = Raise e))
  end.
Proof.
  intros Hx Hy Hl forward entered. subst entered.
  unfold _inference, with_context, forward_step, bind, do_call, lift, ret, dict_getitem.
  rewrite Hx, Hy.
  replace (match batch !! "lengths" with Some l => l | None => VNone end)
    with (default VNone (batch !! "lengths")) by (destruct (batch !! "lengths"); reflexivity).
  rewrite Hl. simpl. subst forward.
  destruct given;
    (destruct (env tr0 (model_eval model)) eqn:R1; simpl);
    try (destruct (env _ no_grad_enter) eqn:R2; simpl);
    try (match goal with
         | |- context [env ?t (model_call_lengths ?m ?a ?b)] =>
             destruct (env t (model_call_lengths m a b)) as [y_pred|] eqn:R3
         | |- context [env ?t (model_call ?m ?a)] =>
             destruct (env t (model_call m a)) as [y_pred|] eqn:R3
         end; simpl);
    try (destruct (env _ no_grad_exit) eqn:R4; simpl);
    tidy_hyps; tidy; auto 8.
Qed.

(** X11: a zero clipping threshold switches clipping off: the step then
    neither reads the model's parameters nor calls [clip_grad_norm_], and
    goes from the backward pass straight to the optimizer update. *)
Theorem update_without_clipping
    (env : oracle) (tr0 : list call) (model optimizer loss_fn : pyval)
    (grad_clipping : Q) (batch : gmap string pyval) (x y : pyval) :
  batch !! "x" = Some x ->
  batch !! "y" = Some y ->
  batch !! "lengths" = None ->
  grad_clipping == 0 ->
  match _update obj_truth model optimizer loss_fn grad_clipping batch env tr0 with
  | (Ok v, tr) =>
      exists y_pred loss,
        tr = tr0 ++ [model_train model; optimizer_zero_grad optimizer;
                     model_call model x; loss_fn_call loss_fn y_pred y;
                     loss_backward loss; optimizer_step optimizer; loss_item loss]
  | (Raise e, tr) =>
      raised_by_last_call env tr e /\
      exists later,
        map call_name (skipn (length tr0) tr) ++ later
        = ["model.train"; "optimizer.zero_grad"; "model(x)"; "loss_fn";
           "loss.backward"; "optimizer.step"; "loss.item"]
  end.
Proof.
  intros Hx Hy Hl Hg.
  assert (Hn : num_truth grad_clipping = false).
  { unfold num_truth. apply Qeq_bool_iff in Hg. now rewrite Hg. }
  unfold _update, forward_step, bind, do_call, lift, ret, dict_getitem.
  rewrite Hx, Hy, Hl, Hn. simpl.
  repeat match goal with
         | |- context [env ?t ?c] => destruct (env t c) eqn:?; simpl
         end.
  all: try (split; [by_last_call|]; tidy;
            rewrite ?skipn_prefix;
            try (rewrite <- (app_nil_r tr0) at 2; rewrite skipn_prefix);
            simpl; eexists; reflexivity).
  do 2 eexists. tidy. reflexivity.
Qed.

(** X12: a batch without the key ["x"], or without ["y"], makes the step
    raise [KeyError] for that key; by then the model is in training mode
    and the gradients are cleared, and no forward call has been made. *)
Theorem update_missing_key
    (env : oracle) (tr0 : list call) (model optimizer loss_fn : pyval)
    (grad_clipping : Q) (batch : gmap string pyval) (key : string) :
  (batch !! "x" = None /\ key = "x") \/
  (is_Some (batch !! "x") /\ batch !! "y" = None /\ key = "y") ->
  is_ok (env tr0 (model_train model)) = true ->
  is_ok (env (tr0 ++ [model_train model]) (optimizer_zero_grad optimizer)) = true ->
  _update obj_truth model optimizer loss_fn grad_clipping batch env tr0
  = (Raise (KeyError key),
     tr0 ++ [model_train model; optimizer_zero_grad optimizer]).
Proof.
  intros Hkey H1 H2.
  unfold _update, forward_step, bind, do_call, lift, ret, dict_getitem.
  destruct (env tr0 (model_train model)); [|discriminate]. simpl.
  destruct (env _ (optimizer_zero_grad optimizer)); [|discriminate]. simpl.
  destruct Hkey as [[Hx ->]|([x Hx] & Hy & ->)].
  - rewrite Hx. simpl. now rewrite <- app_assoc.
  - rewrite Hx, Hy. simpl. now rewrite <- app_assoc.
Qed.

End MoreStepFacts.

Lemma inference_is_read_only_witness :
  let x : @pyval Z := VLong (mk_ndarray 2 1 [[3]; [4]]%Z) in
  let y : @pyval Z := VLong (mk_ndarray 1 2 [[4; 0]]%Z) in
  let batch : gmap string pyval := <["y" := y]> (<["x" := x]> ∅) in
  let failing : oracle :=
    fun _ c => match c with
               | model_call _ _ => Raise (Failure 1)
               | _ => Ok VNone
               end in
  _inference (fun _ => Ok true) (VObj 0) batch failing []
  = (Raise (Failure 1),
     [model_eval (VObj 0); no_grad_enter; model_call (VObj 0) x; no_grad_exit]).
Proof.
  intros x y batch failing.
  pose proof (inference_is_read_only (fun _ => Ok true) failing [] (VObj 0) batch
                x y false eq_refl eq_refl eq_refl) as H.
  destruct (_inference _ _ _ _ _) as [[[y_pred y']|e] tr] eqn:Hrun.
  - vm_compute in Hrun. discriminate Hrun.
  - cbv zeta in H. destruct H as [[-> H]|[[-> H]|[-> H]]].
    + vm_compute in H. discriminate H.
    + vm_compute in H. discriminate H.
    + vm_compute in Hrun. injection Hrun as <-. reflexivity.
Defined.

Lemma update_without_clipping_witness :
  let x : @pyval Z := VLong (mk_ndarray 2 1 [[3]; [4]]%Z) in
  let y : @pyval Z := VLong (mk_ndarray 1 2 [[4; 0]]%Z) in
  let batch : gmap string pyval := <["y" := y]> (<["x" := x]> ∅) in
  let env : oracle := fun tr _ => Ok (VObj (length tr)) in
  snd (_update (fun _ => Ok true) (VObj 100) (VObj 101) (VObj 102) (0 # 1) batch env [])
  = [model_train (VObj 100); optimizer_zero_grad (VObj 101);
     model_call (VObj 100) x; loss_fn_call (VObj 102) (VObj 2) y;
     loss_backward (VObj 3); optimizer_step (VObj 101); loss_item (VObj 3)].
Proof.
  intros x y batch env.
  pose proof (update_without_clipping (fun _ => Ok true) env [] (VObj 100) (VObj 101)
                (VObj 102) (0 # 1) batch x y eq_refl eq_refl eq_refl
                (Qeq_refl (0 # 1))) as H.
  destruct (_update _ _ _ _ _ _ _ _) as [[v|e] tr] eqn:Hrun.
  - destruct H as (y_pred & loss & Htr).
    vm_compute in Hrun. injection Hrun as _ <-. reflexivity.
  - vm_compute in Hrun. discriminate Hrun.
Defined.

Lemma update_missing_key_witness :
  let y : @pyval Z := VLong (mk_ndarray 1 2 [[4; 0]]%Z) in
  let batch : gmap string pyval := <["y" := y]> ∅ in
  let env : oracle := fun tr _ => Ok (VObj (length tr)) in
  _update (fun _ => Ok true) (VObj 100) (VObj 101) (VObj 102) (5 # 1) batch env []
  = (Raise (KeyError "x"), [model_train (VObj 100); optimizer_zero_grad (VObj 101)]).
Proof.
  intros y batch env.
  apply (update_missing_key (fun _ => Ok true) env [] (VObj 100) (VObj 101) (VObj 102)
           (5 # 1) batch "x").
  - left. split; reflexivity.
  - reflexivity.
  - reflexivity.
Defined.

(** ** train_file: what it builds *)

Section WiringFacts.

Context {F : Type} (obj_truth : @pyval F -> result bool).

Ltac flatten := rewrite <- ?app_assoc; simpl.

(** A call that cannot fail has returned. *)
Ltac returned env Hok :=
  match goal with
  | |- context [env ?t ?c] =>
      let R := fresh "R" in
      let Hc := fresh "Hc" in
      destruct (env t c) eqn:R;
      [|exfalso; pose proof (Hok t c) as Hc; rewrite R in Hc; discriminate Hc];
      simpl
  end.

Lemma attach_metrics_trace (env : @oracle F) (engine : @pyval F) metrics :
  (forall tr c, is_ok (env tr c) = true) ->
  forall tr,
    attach_metrics engine metrics env tr
    = (Ok tt, tr ++ map (fun nm => metric_attach (snd nm) engine (fst nm)) metrics).
Proof.
  intros Hok. induction metrics as [|[name metric] rest IH]; intros tr; simpl.
  - unfold ret. now rewrite app_nil_r.
  - unfold bind, do_call. returned env Hok. rewrite IH. now rewrite <- app_assoc.
Qed.

(** X13: when no call fails, [create_lm_evaluator] moves the model only
    for a non-empty device name, builds one engine around the inference
    step of that model, attaches every metric to this engine under its own
    name, in the order of the dict, and returns the engine. *)
Theorem create_lm_evaluator_attaches_in_order
    (env : @oracle F) (tr0 : list (@call F)) (model : @pyval F)
    (metrics : list (string * @pyval F)) (device : option string) :
  (forall tr c, is_ok (env tr c) = true) ->
  let moved :=
    match device with
    | Some d => if str_truth d then [model_to model d] else []
    | None => []
    end in
  exists engine,
    env (tr0 ++ moved) (Engine (inference_fn model)) = Ok engine /\
    create_lm_evaluator model metrics device env tr0
    = (Ok engine,
       tr0 ++ moved ++ Engine (inference_fn model)
           :: map (fun nm => metric_attach (snd nm) engine (fst nm)) metrics).
Proof.
  intros Hok moved. subst moved.
  unfold create_lm_evaluator, move_to_device, bind.
  destruct device as [d|]; [destruct (str_truth d)|]; unfold do_call, ret; simpl.
  - returned env Hok. returned env Hok.
    rewrite attach_metrics_trace by exact Hok. simpl.
    eexists. split; [reflexivity|]. now rewrite <- !app_assoc.
  - rewrite app_nil_r. returned env Hok.
    rewrite attach_metrics_trace by exact Hok. simpl.
    eexists. split; [reflexivity|]. now rewrite <- !app_assoc.
  - rewrite app_nil_r. returned env Hok.
    rewrite attach_metrics_trace by exact Hok. simpl.
    eexists. split; [reflexivity|]. now rewrite <- !app_assoc.
Qed.

(** X14: the handler divides by [validate_every]: with 0 it raises
    [ZeroDivisionError] right after reading the iteration counter, before
    any evaluation; with 1, the default, every iteration starts an
    evaluation run over the loader. *)
Theorem validate_every_zero_and_one
    (env : @oracle F) (tr0 : list (@call F))
    (evaluator loader start_time trainer : @pyval F) (i : Z) :
  env tr0 (state_iteration trainer) = Ok (VInt i) ->
  validate 0 evaluator loader start_time trainer env tr0
  = (Raise ZeroDivisionError, tr0 ++ [state_iteration trainer]) /\
  exists later,
    snd (validate 1 evaluator loader start_time trainer env tr0)
    = tr0 ++ state_iteration trainer :: engine_run evaluator loader 1 :: later.
Proof.
  intros Hi. unfold validate, bind, do_call, lift, ret, py_mod. rewrite Hi. simpl.
  split; [reflexivity|].
  rewrite Z.mod_1_r. simpl.
  repeat match goal with
         | |- context [env ?t ?c] => destruct (env t c) eqn:?; simpl
         end.
  all: eexists; flatten; reflexivity.
Qed.

(** X15: when the file exists and no call fails, [train_file] builds, in
    this order: the dataset over the one file with [process_line] closed
    over vocabulary, [max_length] and [reverse]; the loader with
    [preprocess_batch] as collate function; Adam over the model's
    parameters with learning rate 0.001; the loss; the trainer, after
    moving the model to "cuda" or "cpu", with the default clipping
    threshold; the evaluator over the same model with the metrics "loss"
    and "accuracy"; a checkpointer saving the model on completed epochs
    exactly when [checkpoint_dir] is a non-empty string; the handler
    [validate], which evaluates on the training loader; and it ends with
    the training run over [epochs] epochs. *)
Theorem train_file_wiring
    (env : oracle) (tr0 : list call) (model : pyval) (vocabulary : Vocabulary)
    (reverse : bool) (file_name intermediate_dir : string) (epochs batch_size : Z)
    (checkpoint_dir : option string) (checkpoint_every : Z) (max_length : nat)
    (report_every validate_every : Z) (has_cuda : bool) :
  (forall tr c, is_ok (env tr c) = true) ->
  env tr0 (os_path_exists file_name) = Ok (VBool true) ->
  (forall tr, env tr cuda_is_available = Ok (VBool has_cuda)) ->
  exists dataset loader params optimizer criterion trainer
         loss_metric accuracy_metric evaluator start_time,
    let built :=
      [os_path_exists file_name;
       StreamDataset [file_name] (closed_process_line vocabulary max_length reverse);
       DataLoader dataset batch_size collate_preprocess_batch;
       model_parameters model;
       Adam_requires_grad params (1 # 1000);
       cuda_is_available;
       NLLLoss;
       model_to model (if has_cuda then "cuda" else "cpu");
       Engine (update_fn model optimizer criterion default_grad_clipping);
       Loss criterion;
       CategoricalAccuracy;
       Engine (inference_fn model);
       metric_attach loss_metric evaluator "loss";
       metric_attach accuracy_metric evaluator "accuracy"] in
    let started :=
      [datetime_now;
       engine_on trainer ITERATION_COMPLETED
         (validate_fn validate_every evaluator loader start_time);
       engine_run trainer loader epochs] in
    let trace :=
      snd (train_file obj_truth model vocabulary reverse file_name intermediate_dir
             epochs batch_size checkpoint_dir checkpoint_every max_length
             report_every validate_every env tr0) in
    fst (train_file obj_truth model vocabulary reverse file_name intermediate_dir
           epochs batch_size checkpoint_dir checkpoint_every max_length
           report_every validate_every env tr0) = Ok tt /\
    match checkpoint_dir with
    | Some dir =>
        if str_truth dir
        then exists checkpointer,
               trace = tr0 ++ built
                       ++ [ModelCheckpoint dir "model" checkpoint_every true;
                           add_event_handler trainer EPOCH_COMPLETED checkpointer
                             [("model", model)]]
                       ++ started
        else trace = tr0 ++ built ++ started
    | None => trace = tr0 ++ built ++ started
    end.
Proof.
  intros Hok Hfile Hcuda.
  unfold train_file, train_file_body, create_lm_trainer, create_lm_evaluator,
    move_to_device, attach_metrics, bind, do_call, lift, ret.
  rewrite Hfile. simpl.
  do 4 returned env Hok.
  rewrite Hcuda. simpl.
  destruct has_cuda; simpl;
    (do 7 returned env Hok);
    (destruct checkpoint_dir as [dir|]; [destruct (str_truth dir)|]; simpl);
    repeat returned env Hok;
    do 10 eexists; (split; [reflexivity|]);
    try eexists; flatten; reflexivity.
Qed.

End WiringFacts.

Lemma create_lm_evaluator_attaches_in_order_witness :
  let env : @oracle Z := fun tr _ => Ok (VObj (length tr)) in
  create_lm_evaluator (VObj 0) [("loss", VObj 7); ("accuracy", VObj 8)] None env []
  = (Ok (VObj 0),
     [Engine (inference_fn (VObj 0)); metric_attach (VObj 7) (VObj 0) "loss";
      metric_attach (VObj 8) (VObj 0) "accuracy"]).
Proof.
  intros env.
  destruct (create_lm_evaluator_attaches_in_order env [] (VObj 0)
              [("loss", VObj 7); ("accuracy", VObj 8)] None) as (engine & He & Hrun).
  - intros tr c. reflexivity.
  - injection He as <-. exact Hrun.
Defined.

Lemma validate_every_zero_and_one_witness :
  let env : @oracle Z :=
    fun tr c => match c with
                | state_iteration _ => Ok (VInt 3)
                | _ => Ok (VObj (length tr))
                end in
  validate 0 (VObj 1) (VObj 2) (VObj 3) (VObj 0) env []
  = (Raise ZeroDivisionError, [state_iteration (VObj 0)]).
Proof.
  intros env.
  apply (validate_every_zero_and_one env [] (VObj 1) (VObj 2) (VObj 3) (VObj 0) 3%Z).
  reflexivity.
Defined.

Lemma train_file_wiring_witness :
  let env : @oracle Z :=
    fun tr c => match c with
                | os_path_exists _ => Ok (VBool true)
                | cuda_is_available => Ok (VBool false)
                | _ => Ok (VObj (length tr))
                end in
  let run :=
    train_file (fun _ => Ok true) (VObj 0) scenario_vocabulary false
      "corpus.txt" "./chunks" 20 64 (Some "checkpoints") 1 50 50 1 env [] in
  fst run = Ok tt /\
  snd run
  = [os_path_exists "corpus.txt";
     StreamDataset ["corpus.txt"] (closed_process_line scenario_vocabulary 50 false);
     DataLoader (VObj 1) 64 collate_preprocess_batch;
     model_parameters (VObj 0);
     Adam_requires_grad (VObj 3) (1 # 1000);
     cuda_is_available;
     NLLLoss;
     model_to (VObj 0) "cpu";
     Engine (update_fn (VObj 0) (VObj 4) (VObj 6) (5 # 1));
     Loss (VObj 6);
     CategoricalAccuracy;
     Engine (inference_fn (VObj 0));
     metric_attach (VObj 9) (VObj 11) "loss";
     metric_attach (VObj 10) (VObj 11) "accuracy";
     ModelCheckpoint "checkpoints" "model" 1 true;
     add_event_handler (VObj 8) EPOCH_COMPLETED (VObj 14) [("model", VObj 0)];
     datetime_now;
     engine_on (VObj 8) ITERATION_COMPLETED (validate_fn 1 (VObj 11) (VObj 2) (VObj 16));
     engine_run (VObj 8) (VObj 2) 20].
Proof.
  intros env run. split.
  - destruct (train_file_wiring (fun _ => Ok true) env [] (VObj 0) scenario_vocabulary
                false "corpus.txt" "./chunks" 20 64 (Some "checkpoints") 1 50 50 1 false)
      as (dataset & loader & params & optimizer & criterion & trainer & loss_metric
          & accuracy_metric & evaluator & start_time & Hfst & _).
    + intros tr c. destruct c; reflexivity.
    + reflexivity.
    + reflexivity.
    + exact Hfst.
  - vm_compute. reflexivity.
Defined.

(** ** predict on outputs of any shape *)

Section MorePredictFacts.

Context {F : Type} (fexp : F -> F).

(** X16: [predict] never compares the model's output with the sequence
    it was given: for any three-dimensional output [a, b, c] with
    [c > 0] it returns the exponentials of the entries at the last
    position of the third dimension.  The first dimension is dropped
    only when its size is 1; otherwise the result keeps the shape
    [a, b]. *)
Theorem predict_output_shape_rule
    (env : oracle) (tr0 : list call) (model : pyval) (indices : list Z)
    (out : @tensor F) (a b c : nat) :
  let x := VLong (unsqueeze_indices indices) in
  is_ok (env tr0 (model_eval model)) = true ->
  is_ok (env (tr0 ++ [model_eval model]) cuda_is_available) = true ->
  env (tr0 ++ [model_eval model; cuda_is_available]) (model_forward model x)
    = Ok (VFloat out) ->
  t_shape out = [a; b; c] ->
  c <> 0 ->
  exists res,
    predict fexp model indices env tr0
    = (Ok res, tr0 ++ [model_eval model; cuda_is_available; model_forward model x]) /\
    t_shape res = (if a =? 1 then [b] else [a; b]) /\
    forall i v,
      t_at res (if a =? 1 then [v] else [i; v])
      = fexp (t_at out [if a =? 1 then 0 else i; v; c - 1]).
Proof.
  intros x H1 H2 H3 Hshape Hc.
  unfold predict, bind, do_call, lift, ret.
  destruct (env tr0 (model_eval model)); [|discriminate]. simpl.
  destruct (env _ cuda_is_available); [|discriminate]. simpl.
  rewrite <- app_assoc. simpl. fold x. rewrite H3. simpl.
  unfold t_transpose. rewrite Hshape. simpl.
  unfold t_squeeze. simpl.
  destruct (a =? 1) eqn:Ha; unfold t_last; simpl;
    (destruct c as [|c']; [congruence|]); simpl;
    (eexists; split; [rewrite <- !app_assoc; reflexivity|]);
    (split; [reflexivity|]); intros i v; simpl;
    now rewrite Nat.sub_0_r.
Qed.

(** X17: an output with fewer than three dimensions, or with no entry
    along its third dimension, makes [predict] raise [IndexError] after
    the forward pass: the three calls have been made and no value is
    returned. *)
Theorem predict_rejects_short_output
    (env : oracle) (tr0 : list call) (model : pyval) (indices : list Z)
    (out : @tensor F) :
  let x := VLong (unsqueeze_indices indices) in
  is_ok (env tr0 (model_eval model)) = true ->
  is_ok (env (tr0 ++ [model_eval model]) cuda_is_available) = true ->
  env (tr0 ++ [model_eval model; cuda_is_available]) (model_forward model x)
    = Ok (VFloat out) ->
  length (t_shape out) < 3 \/ (exists a b, t_shape out = [a; b; 0]) ->
  predict fexp model indices env tr0
  = (Raise IndexError,
     tr0 ++ [model_eval model; cuda_is_available; model_forward model x]).
Proof.
  intros x H1 H2 H3 Hshape.
  unfold predict, bind, do_call, lift, ret.
  destruct (env tr0 (model_eval model)); [|discriminate]. simpl.
  destruct (env _ cuda_is_available); [|discriminate]. simpl.
  rewrite <- app_assoc. simpl. fold x. rewrite H3. simpl.
  rewrite <- !app_assoc. simpl.
  destruct Hshape as [Hlen|(n0 & n1 & Hshape)].
  - unfold t_transpose.
    replace (2 <? length (t_shape out)) with false
      by (symmetry; apply Nat.ltb_ge; lia).
    rewrite andb_false_r. reflexivity.
  - unfold t_transpose. rewrite Hshape. simpl.
    unfold t_squeeze. simpl.
    destruct (n0 =? 1); reflexivity.
Qed.

End MorePredictFacts.

Lemma predict_output_shape_rule_witness :
  let out : @tensor Z :=
    mk_tensor [2; 3; 4]
      (fun idx => match idx with
                  | [i; v; t] => Z.of_nat (100 * i + 10 * v + t)
                  | _ => (-1)%Z
                  end) in
  let env : oracle :=
    fun _ c => match c with model_forward _ _ => Ok (VFloat out) | _ => Ok VNone end in
  exists res tr,
    predict Z.succ (VObj 0) [5; 6]%Z env [] = (Ok res, tr) /\
    t_shape res = [2; 3] /\
    t_at res [1; 2] = 124%Z.
Proof.
  intros out env.
  destruct (predict_output_shape_rule Z.succ env [] (VObj 0) [5; 6]%Z out 2 3 4)
    as (res & Hrun & Hshape & Hat); try reflexivity; [discriminate|].
  exists res. eexists. split; [exact Hrun|]. split; [exact Hshape|].
  exact (Hat 1 2).
Defined.

Lemma predict_rejects_short_output_witness :
  let flat : @tensor Z := mk_tensor [2; 3] (fun _ => 0%Z) in
  let env : oracle :=
    fun _ c => match c with model_forward _ _ => Ok (VFloat flat) | _ => Ok VNone end in
  fst (predict Z.succ (VObj 0) [5; 6]%Z env []) = Raise IndexError.
Proof.
  intros flat env.
  rewrite (predict_rejects_short_output Z.succ env [] (VObj 0) [5; 6]%Z flat);
    try reflexivity.
  left. simpl. lia.
Defined.
